(** * add-to-steam.py: the shortcuts.vdf record store

    A shallow embedding of the binary-database part of [add-to-steam.py]:
    the Python built-ins the script relies on ([str.encode], [str(int)],
    [int(bytes)], [struct.pack("<I", _)], [zlib.crc32], [re.findall] for the
    one pattern the script uses, [bytes.endswith] and slicing), then the
    script's own functions [get_latest_index] and [make_entry], and finally
    the top-level statements that create, read and rewrite [shortcuts.vdf],
    run against an explicit model of the file system.  The first part of
    the script (arguments, Steam user, paths) and the artwork loop are
    modelled as well, with the environment and the network as parameters.

    Conventions.
    - [bytes] is [list byte]; a Python [str] is its list of code points.
    - A Python exception is a [Raise] in the [result] type.
    - Python's [int] is unbounded, so integers are [Z]. *)

From Stdlib Require Import ZArith NArith List Lia Bool.
From Stdlib Require Import Strings.Byte Strings.String.
From stdpp Require Import base list option gmap.
Import ListNotations.

Abbreviation bytes := (list byte).

(** ** Python values and built-ins *)
Module Py.

(** A [str] is a sequence of code points; each is below [0x110000]. *)
Abbreviation str := (list N).

Inductive exn : Type :=
| UnicodeEncodeError
| StructError
| FileNotFoundError.

Inductive result (A : Type) : Type :=
| Ok (a : A)
| Raise (e : exn).
Arguments Ok {A} a.
Arguments Raise {A} e.

#[global] Instance result_ret : MRet result := fun _ a => Ok a.
#[global] Instance result_bind : MBind result := fun _ _ f m =>
  match m with
  | Ok a => f a
  | Raise e => Raise e
  end.

#[global] Instance byte_eq_dec : EqDecision byte := Byte.byte_eq_dec.

(** The byte with a given value (values above 255 do not occur). *)
Definition byte_of_N (n : N) : byte :=
  match Byte.of_N n with
  | Some b => b
  | None => x00
  end.

Definition byte_of_Z (z : Z) : byte := byte_of_N (Z.to_N z).

(** A bytes literal [b"..."] with ASCII content. *)
Definition lit (s : string) : bytes := list_byte_of_string s.

(** A str literal ["..."] with ASCII content. *)
Definition slit (s : string) : str := map Byte.to_N (list_byte_of_string s).

(** *** [str.encode()]: UTF-8, strict error handler.
    Surrogate code points ([U+D800]..[U+DFFF]) cannot be encoded. *)
Definition utf8_char (c : N) : result bytes :=
  if (c <? 0x80)%N then Ok [byte_of_N c]
  else if (c <? 0x800)%N then
    Ok [byte_of_N (N.lor 0xC0 (N.shiftr c 6));
        byte_of_N (N.lor 0x80 (N.land c 0x3F))]
  else if (c <? 0x10000)%N then
    if (0xD800 <=? c)%N && (c <=? 0xDFFF)%N then Raise UnicodeEncodeError
    else
      Ok [byte_of_N (N.lor 0xE0 (N.shiftr c 12));
          byte_of_N (N.lor 0x80 (N.land (N.shiftr c 6) 0x3F));
          byte_of_N (N.lor 0x80 (N.land c 0x3F))]
  else if (c <? 0x110000)%N then
    Ok [byte_of_N (N.lor 0xF0 (N.shiftr c 18));
        byte_of_N (N.lor 0x80 (N.land (N.shiftr c 12) 0x3F));
        byte_of_N (N.lor 0x80 (N.land (N.shiftr c 6) 0x3F));
        byte_of_N (N.lor 0x80 (N.land c 0x3F))]
  else Raise UnicodeEncodeError.

Fixpoint encode (s : str) : result bytes :=
  match s with
  | [] => Ok []
  | c :: s' =>
      bs ← utf8_char c;
      rest ← encode s';
      Ok (bs ++ rest)
  end.

(** *** [str(n)] for an [int]: decimal digits, ['-'] first when negative. *)
Fixpoint str_of_N_aux (fuel : nat) (n : N) (acc : str) : str :=
  match fuel with
  | O => acc
  | S fuel' =>
      let acc' := (48 + n mod 10)%N :: acc in
      if (n / 10 =? 0)%N then acc' else str_of_N_aux fuel' (n / 10)%N acc'
  end.

Definition str_of_N (n : N) : str := str_of_N_aux (S (N.size_nat n)) n [].

Definition str_of_int (z : Z) : str :=
  match z with
  | Zneg p => 45%N :: str_of_N (Npos p)
  | _ => str_of_N (Z.to_N z)
  end.

(** *** [int(b)] on a bytes object of ASCII decimal digits (the only
    arguments the script passes are matches of [\d+]).  Leading zeros are
    accepted; the value is not bounded (the interpreter's configurable limit
    on the number of digits of a literal is not part of the model). *)
Definition is_digit (b : byte) : bool :=
  (48 <=? Byte.to_N b)%N && (Byte.to_N b <=? 57)%N.

Definition digit_val (b : byte) : Z := Z.of_N (Byte.to_N b) - 48.

Definition int_of_digits (ds : bytes) : Z :=
  fold_left (fun acc b => 10 * acc + digit_val b)%Z ds 0%Z.

(** *** [struct.pack("<I", v)]: four bytes, least significant first;
    [struct.error] outside [0 .. 2^32-1]. *)
Definition struct_pack_I (v : Z) : result bytes :=
  if (0 <=? v)%Z && (v <? 2 ^ 32)%Z then
    Ok [byte_of_Z (Z.land v 255);
        byte_of_Z (Z.land (Z.shiftr v 8) 255);
        byte_of_Z (Z.land (Z.shiftr v 16) 255);
        byte_of_Z (Z.land (Z.shiftr v 24) 255)]
  else Raise StructError.

(** *** [zlib.crc32(data)]: CRC-32 with the reflected polynomial
    [0xEDB88320], initial value and final xor [0xFFFFFFFF]. *)
Fixpoint crc_shift (k : nat) (c : Z) : Z :=
  match k with
  | O => c
  | S k' =>
      crc_shift k'
        (if Z.testbit c 0 then Z.lxor (Z.shiftr c 1) 0xEDB88320
         else Z.shiftr c 1)
  end.

Definition crc_byte (c : Z) (b : byte) : Z :=
  crc_shift 8 (Z.lxor c (Z.of_N (Byte.to_N b))).

Definition crc32 (data : bytes) : Z :=
  Z.lxor (fold_left crc_byte data 0xFFFFFFFF%Z) 0xFFFFFFFF.

(** *** [data.endswith(suffix)], [data[:-k]] and [data[-k:]]. *)
Definition endswith (data sfx : bytes) : bool :=
  bool_decide (drop (length data - length sfx) data = sfx).

Definition slice_to_neg (k : nat) (data : bytes) : bytes :=
  take (length data - k) data.

Definition slice_from_neg (k : nat) (data : bytes) : bytes :=
  drop (length data - k) data.

(** *** [re.findall(rb"\x00(\d+)\x00", data)].

    The pattern is a zero byte, a greedy non-empty run of ASCII digits
    (a bytes pattern, so [\d] is [0-9] only) and a zero byte.  Since the
    byte after a match of [\d+] that stopped early would be a digit, giving
    digits back never helps: an attempt at a position succeeds exactly when
    the maximal run of digits after the zero byte is non-empty and is
    followed by a zero byte. *)
Fixpoint span_digits (l : bytes) : bytes * bytes :=
  match l with
  | b :: t =>
      if is_digit b then
        let '(ds, rest) := span_digits t in (b :: ds, rest)
      else ([], l)
  | [] => ([], [])
  end.

(** One attempt at the head of [l]: the captured group and what follows
    the whole match. *)
Definition match_at (l : bytes) : option (bytes * bytes) :=
  match l with
  | b :: t =>
      if decide (b = x00) then
        match span_digits t with
        | (d :: ds, z :: rest) =>
            if decide (z = x00) then Some (d :: ds, rest) else None
        | _ => None
        end
      else None
  | [] => None
  end.

(** [findall] scans left to right; after a match the scan resumes behind
    the match, otherwise one byte further.  The remaining input gets shorter
    at every step, so its length is enough fuel. *)
Fixpoint findall_fuel (fuel : nat) (l : bytes) : list bytes :=
  match fuel with
  | O => []
  | S fuel' =>
      match l with
      | [] => []
      | _ :: t =>
          match match_at l with
          | Some (ds, rest) => ds :: findall_fuel fuel' rest
          | None => findall_fuel fuel' t
          end
      end
  end.

Definition findall (data : bytes) : list bytes :=
  findall_fuel (length data) data.

End Py.

Import Py.

(** ** The script's functions *)

(** [APPNAME = "Minecraft Splitscreen"] *)
Definition APPNAME : str := slit "Minecraft Splitscreen".

(** [get_latest_index(data)] *)
Definition get_latest_index (data : bytes) : Z :=
  let matches := findall data in
  match last matches with
  | Some m => int_of_digits m
  | None => (-1)%Z
  end.

(** [make_entry(index, appid, appname, exe, startdir)]; the function also
    reads the global [config_dir], here its first argument. *)
Definition make_entry (config_dir : str) (index appid : Z)
    (appname exe startdir : str) : result bytes :=
  let x00 := [Byte.x00] in
  let x01 := [Byte.x01] in
  let x02 := [Byte.x02] in
  let x08 := [Byte.x08] in
  let b := [] in
  index_s ← encode (str_of_int index);
  let b := b ++ (x00 ++ index_s ++ x00) in
  packed ← struct_pack_I appid;
  let b := b ++ (x02 ++ lit "appid" ++ x00 ++ packed) in
  appname_b ← encode appname;
  let b := b ++ (x01 ++ lit "appname" ++ x00 ++ appname_b ++ x00) in
  exe_b ← encode exe;
  let b := b ++ (x01 ++ lit "exe" ++ x00 ++ exe_b ++ x00) in
  startdir_b ← encode startdir;
  let b := b ++ (x01 ++ lit "StartDir" ++ x00 ++ startdir_b ++ x00) in
  config_dir_b ← encode config_dir;
  appid_s ← encode (str_of_int appid);
  let b := b ++ (x01 ++ lit "icon" ++ x00 ++ config_dir_b ++ lit "/grid/"
                 ++ appid_s ++ lit "_icon.ico" ++ x00) in
  let b := b ++ x08 in
  Ok b.

(** [appid = 0x80000000 | zlib.crc32((APPNAME + EXE).encode("utf-8")) & 0xFFFFFFFF];
    in Python [&] binds tighter than [|]. *)
Definition appid (appname exe : str) : result Z :=
  encoded ← encode (appname ++ exe);
  Ok (Z.lor 0x80000000 (Z.land (crc32 encoded) 0xFFFFFFFF)).

(** [b"\x00shortcuts\x00\x08\x08"], the content of a new file. *)
Definition skeleton : bytes :=
  [x00] ++ lit "shortcuts" ++ [x00; x08; x08].

(** [data[:-2] + entry + b"\x08\x08"] *)
Definition new_data (data entry : bytes) : bytes :=
  slice_to_neg 2 data ++ entry ++ [x08; x08].

(** ** The top-level statements, on a model of the file system

    The model covers the statements from "Ensure shortcuts.vdf exists" to
    the end of the [if data.endswith(...)] statement.  A [world] holds the
    regular files, the directories, and the trace of what the script did.
    File-system calls are assumed to succeed whenever the path they need is
    there (no permission or disk errors). *)

Inductive message : Type :=
| MsgAdded (index appid : Z)
| MsgNotRecognized.

Inductive event : Type :=
| Makedirs (path : str)
| WriteFile (path : str) (content : bytes)
| ReadFile (path : str)
| Print (m : message).

Record world : Type := World {
  files : gmap str bytes;
  dirs : gset str;
  trace : list event
}.

(** How the modelled statements end: control goes on to the artwork
    download, [exit(status)] was called, or an exception was not caught
    (the interpreter then exits with status 1). *)
Inductive outcome : Type :=
| Continues
| Exit (status : Z)
| Uncaught (e : exn).

Definition exit_status (o : outcome) : option Z :=
  match o with
  | Continues => None
  | Exit status => Some status
  | Uncaught _ => Some 1%Z
  end.

(** [os.path.exists(path)] for a path that names a regular file or nothing *)
Definition path_exists (path : str) (w : world) : bool :=
  bool_decide (is_Some (files w !! path)).

(** [os.makedirs(path, exist_ok=True)] *)
Definition makedirs (path : str) (w : world) : world :=
  World (files w) ({[path]} ∪ dirs w) (trace w ++ [Makedirs path]).

(** [with open(path, "wb") as f: f.write(content)] *)
Definition write_file (path : str) (content : bytes) (w : world) : world :=
  World (<[path := content]> (files w)) (dirs w)
        (trace w ++ [WriteFile path content]).

(** [with open(path, "rb") as f: data = f.read()] *)
Definition read_file (path : str) (w : world) : world * result bytes :=
  match files w !! path with
  | Some data => (World (files w) (dirs w) (trace w ++ [ReadFile path]), Ok data)
  | None => (w, Raise FileNotFoundError)
  end.

Definition print (m : message) (w : world) : world :=
  World (files w) (dirs w) (trace w ++ [Print m]).

Section Script.

(** [config_dir = os.path.join(userdata, user_id, "config")], and the
    command-line arguments after [os.path.expanduser]. *)
Variable config_dir : str.
Variables EXE STARTDIR : str.

(** [shortcuts_file = os.path.join(config_dir, "shortcuts.vdf")] *)
Definition shortcuts_file : str := config_dir ++ slit "/shortcuts.vdf".

(** "Ensure shortcuts.vdf exists (create if missing)" *)
Definition ensure_exists (w : world) : world :=
  if path_exists shortcuts_file w then w
  else
    let w := makedirs config_dir w in
    write_file shortcuts_file skeleton w.

(** "Ensure ..." followed by "Read current shortcuts.vdf into memory" *)
Definition open_shortcuts (w : world) : world * result bytes :=
  read_file shortcuts_file (ensure_exists w).

(** The statement [if data.endswith(b"\x08\x08"): ... else: ...] *)
Definition insert_entry (data entry : bytes) (index id : Z) (w : world)
    : world * outcome :=
  if endswith data [x08; x08] then
    let w := write_file shortcuts_file (new_data data entry) w in
    (print (MsgAdded index id) w, Continues)
  else
    (print MsgNotRecognized w, Exit 1).

(** The statements after the file has been read: [index], [appid],
    [entry] and the insertion. *)
Definition after_open (data : bytes) (w : world) : world * outcome :=
  let index := (get_latest_index data + 1)%Z in
  match appid APPNAME EXE with
  | Raise e => (w, Uncaught e)
  | Ok id =>
      match make_entry config_dir index id APPNAME EXE STARTDIR with
      | Raise e => (w, Uncaught e)
      | Ok entry => insert_entry data entry index id w
      end
  end.

Definition main (w : world) : world * outcome :=
  match open_shortcuts w with
  | (w, Raise e) => (w, Uncaught e)
  | (w, Ok data) => after_open data w
  end.

End Script.

(** ** The pattern, stated on its own

    [occurrences data] lists, from left to right, the digits of every place
    in [data] where a zero byte, one or more digits and a zero byte stand;
    [next_index_rightmost] is the next index as computed from the rightmost
    of them. *)
Fixpoint occurrences (l : bytes) : list bytes :=
  match l with
  | [] => []
  | _ :: t =>
      match match_at l with
      | Some (ds, _) => ds :: occurrences t
      | None => occurrences t
      end
  end.



(** A database: the header, the records one after the other, and the
    two-byte terminator. *)
Definition header : bytes := [x00] ++ lit "shortcuts" ++ [x00].

Definition database (records : list bytes) : bytes :=
  header ++ concat records ++ [x08; x08].

(** ** Notions used in the statements *)

(** The value of a sequence of digit characters. *)
Definition digits_value (cs : str) : N :=
  fold_left (fun acc c => 10 * acc + (c - 48))%N cs 0%N.

Definition digit_char (c : N) : Prop := (48 <= c <= 57)%N.

(** A code point that [encode] accepts: below [0x110000], no surrogate. *)
Definition scalar_value (c : N) : Prop :=
  (c < 0xD800 \/ 0xDFFF < c < 0x110000)%N.

(** [str(z).encode()] *)
Definition decimal (z : Z) : bytes := map byte_of_N (str_of_int z).

(** The value of a byte, and the range of an unsigned 32-bit integer. *)
Definition byte_val (b : byte) : Z := Z.of_N (Byte.to_N b).

Definition u32 (c : Z) : Prop := (0 <= c < 2 ^ 32)%Z.

(** A byte that is neither zero nor a digit, such as the [08] that closes a
    record, separates the matches before it from the matches behind it. *)
Definition barrier (c : byte) : Prop := c <> x00 /\ is_digit c = false.

(** The stored file, if any, ends with the terminator. *)
Definition well_terminated (config_dir : str) (w : world) : Prop :=
  forall data,
    files w !! shortcuts_file config_dir = Some data ->
    endswith data [x08; x08] = true.

(** Several runs of the script, one after the other, on the same
    [config_dir]; each run has its own arguments [(EXE, STARTDIR)]. *)
Fixpoint runs (config_dir : str) (args : list (str * str)) (w : world)
    : world * list outcome :=
  match args with
  | [] => (w, [])
  | (EXE, STARTDIR) :: args' =>
      let '(w1, o) := main config_dir EXE STARTDIR w in
      let '(w2, os) := runs config_dir args' w1 in
      (w2, o :: os)
  end.

(** The layout of a record as the format describes it: the index marker,
    the integer field [appid], the four string fields, and the closing
    byte.  The arguments are the bytes of the values. *)
Definition record_layout (index_b id_b name_b exe_b dir_b icon_b : bytes)
    : bytes :=
  [x00] ++ index_b ++ [x00]
  ++ [x02] ++ lit "appid" ++ [x00] ++ id_b
  ++ [x01] ++ lit "appname" ++ [x00] ++ name_b ++ [x00]
  ++ [x01] ++ lit "exe" ++ [x00] ++ exe_b ++ [x00]
  ++ [x01] ++ lit "StartDir" ++ [x00] ++ dir_b ++ [x00]
  ++ [x01] ++ lit "icon" ++ [x00] ++ icon_b ++ [x00]
  ++ [x08].

(** The path of the icon, as a str. *)
Definition icon_path (prefix : str) (id : Z) : str :=
  prefix ++ slit "/grid/" ++ str_of_int id ++ slit "_icon.ico".

(** [r] is a record that [make_entry] built for the index [i]. *)
Definition record_of (i : Z) (r : bytes) : Prop :=
  exists config_dir id appname exe startdir,
    make_entry config_dir i id appname exe startdir = Ok r.

(** A record in which the pattern occurs once only, as the index marker:
    neither the bytes of the identifier nor a field value form it. *)
Definition plain_record (ir : Z * bytes) : Prop :=
  (0 <= ir.1)%Z /\ record_of ir.1 ir.2 /\ length (occurrences ir.2) = 1.

(** Sample data: a record for the index [i], built by [make_entry] for the
    launcher of user [u]. *)
Definition sample_config_dir : str :=
  slit "/home/u/.steam/steam/userdata/1001/config".

Definition sample_record (i : Z) : bytes :=
  match make_entry sample_config_dir i 3694483457 APPNAME
          (slit "/home/u/run.sh") (slit "/home/u/data") with
  | Ok r => r
  | Raise _ => []
  end.

(** Sample data: the launcher installed for the user [user23842]. *)
Definition pollymc_exe : str :=
  slit "/home/user23842/.local/share/PollyMC/minecraftSplitscreen.sh".

Definition pollymc_dir : str := slit "/home/user23842/.local/share/PollyMC".

Definition pollymc_config_dir : str :=
  slit "/home/user23842/.steam/steam/userdata/1001/config".

(** Sample data: a directory name with the characters [U+0000], ['7'],
    [U+0000] in it. *)
Definition odd_dir : str := slit "/data" ++ [0; 55; 0]%N ++ slit "x".

(** A byte of value 128 or more: a lead or continuation byte. *)
Definition high_byte (b : byte) : Prop := (128 <= Byte.to_N b)%N.

(** ** Values that cannot be taken for an index marker *)

(** A str without [U+0000] that is empty or holds a character other than
    an ASCII digit; and the test for it. *)
Definition plain_text (s : str) : Prop :=
  Forall (fun c => c <> 0%N) s /\
  (s = [] \/ Exists (fun c => ~ digit_char c) s).

Definition plain_textb (s : str) : bool :=
  forallb (fun c => negb (c =? 0)%N) s &&
  match s with
  | [] => true
  | _ => existsb (fun c => negb ((48 <=? c)%N && (c <=? 57)%N)) s
  end.

(** Bytes without a zero byte that are empty or hold a byte that is not a
    digit. *)
Definition plain_value (v : bytes) : Prop :=
  Forall (fun b => b <> x00) v /\
  (v = [] \/ Exists (fun b => is_digit b = false) v).

(** The four bytes of an identifier do not form the pattern behind the zero
    byte that ends the key [appid]. *)
Definition plain_appid (id_b : bytes) : Prop :=
  occurrences ([x00] ++ id_b ++ [x01]) = [].

(** The identifier of the launcher [exe] is computed and is plain. *)
Definition plain_launcher (exe : str) : Prop :=
  exists id id_b,
    appid APPNAME exe = Ok id /\ struct_pack_I id = Ok id_b /\
    plain_appid id_b.

(** Arguments of a run for which the record is plain: the path and the
    directory are plain, the directory can be encoded, and the identifier
    of the path is plain. *)
Definition plain_run (a : str * str) : Prop :=
  plain_text a.1 /\ plain_text a.2 /\ Forall scalar_value a.2 /\
  plain_launcher a.1.

(** ** Paths and the start of the script *)

(** [s.startswith(prefix)] and [s.endswith(suffix)] on a str *)
Definition str_startswith (s prefix : str) : bool :=
  bool_decide (take (length prefix) s = prefix).

Definition str_endswith (s sfx : str) : bool :=
  bool_decide (drop (length s - length sfx) s = sfx).

(** [os.path.join(a, *p)] of [posixpath]: a component that starts with
    ["/"] replaces what came before; otherwise it is appended, with a
    ["/"] unless the path so far is empty or ends with one. *)
Definition join_step (path b : str) : str :=
  if str_startswith b (slit "/") then b
  else if bool_decide (path = []) || str_endswith path (slit "/")
       then path ++ b
       else path ++ slit "/" ++ b.

Definition path_join (a : str) (p : list str) : str := fold_left join_step p a.

(** [os.path.exists(path)] and [os.path.isdir(path)] *)
Definition os_path_exists (path : str) (fs : gmap str bytes) (ds : gset str)
    : bool :=
  bool_decide (is_Some (fs !! path)) || bool_decide (path ∈ ds).

Definition os_path_isdir (path : str) (ds : gset str) : bool :=
  bool_decide (path ∈ ds).

(** What the first part of the script prints, one constructor for each
    [print]; [Usage] stands for the lines of [print_usage()]. *)
Inductive startup_message : Type :=
| ErrArgumentCount (got : Z)
| Usage
| ErrLauncherNotFound (exe : str)
| ErrDataDirNotFound (startdir : str)
| InfoLauncher (launcher_name : str)
| InfoScript (exe : str)
| InfoWorkingDirectory (startdir : str)
| ErrUserdataNotFound
| ExpectedUserdata (userdata : str)
| ErrNoSteamUser.

(** How the first part ends: with the values the rest of the script uses,
    with [sys.exit(status)], or with the [NotADirectoryError] of
    [os.listdir] on a regular file. *)
Inductive startup_end : Type :=
| Ready (EXE STARTDIR userdata user_id : str)
| Quit (status : Z)
| ListdirNotADirectory.

Section Startup.

(** What the script learns from its environment: the home directories
    behind [os.path.expanduser], the listing [os.listdir] gives (in the
    order of the operating system), and the table of Unicode digits behind
    [str.isdigit]. *)
Variable expanduser : str -> str.
Variable listdir : str -> list str.
Variable char_isdigit : N -> bool.

(** [d.isdigit()]: at least one character, all of them digits *)
Definition str_isdigit (d : str) : bool :=
  negb (bool_decide (d = [])) && forallb char_isdigit d.

(** Lines 50 to 98, up to [config_dir]; [argv] is [sys.argv]. *)
Definition startup (argv : list str) (w : world)
    : list startup_message * startup_end :=
  match argv with
  | [_; arg1; arg2; arg3] =>
      let EXE := expanduser arg1 in
      let STARTDIR := expanduser arg2 in
      let LAUNCHER_NAME := arg3 in
      if negb (os_path_exists EXE (files w) (dirs w)) then
        ([ErrLauncherNotFound EXE], Quit 1)
      else if negb (os_path_isdir STARTDIR (dirs w)) then
        ([ErrDataDirNotFound STARTDIR], Quit 1)
      else
        let out := [InfoLauncher LAUNCHER_NAME; InfoScript EXE;
                    InfoWorkingDirectory STARTDIR] in
        let userdata := expanduser (slit "~/.steam/steam/userdata") in
        if negb (os_path_exists userdata (files w) (dirs w)) then
          (out ++ [ErrUserdataNotFound; ExpectedUserdata userdata], Quit 1)
        else if negb (os_path_isdir userdata (dirs w)) then
          (out, ListdirNotADirectory)
        else
          match List.find str_isdigit (listdir userdata) with
          | Some user_id =>
              if bool_decide (user_id = []) then
                (out ++ [ErrNoSteamUser], Quit 1)
              else (out, Ready EXE STARTDIR userdata user_id)
          | None => (out ++ [ErrNoSteamUser], Quit 1)
          end
  | _ =>
      ([ErrArgumentCount (Z.of_nat (length argv) - 1); Usage], Quit 1)
  end.

End Startup.

(** [config_dir = os.path.join(userdata, user_id, "config")] *)
Definition config_dir_of (userdata user_id : str) : str :=
  path_join userdata [user_id; slit "config"].

(** ** The artwork *)

(** [STEAMGRIDDB_IMAGES]; a dict is iterated in the order of insertion. *)
Definition STEAMGRIDDB_IMAGES : list (str * str) :=
  [(slit "p",
    slit "https://cdn2.steamgriddb.com/grid/a73027901f88055aaa0fd1a9e25d36c7.png");
   (slit "",
    slit "https://cdn2.steamgriddb.com/grid/e353b610e9ce20f963b4cca5da565605.jpg");
   (slit "_hero",
    slit "https://cdn2.steamgriddb.com/hero/ecd812da02543c0269cfc2c56ab3c3c0.png");
   (slit "_logo",
    slit "https://cdn2.steamgriddb.com/logo/90915208c601cc8c86ad01250ee90c12.png");
   (slit "_icon",
    slit "https://cdn2.steamgriddb.com/icon/add7a048049671970976f3e18f21ade3.ico")].

(** What a request gives: [urlopen] raises, [resp.read()] raises after the
    file has been opened for writing, or the body arrives. *)
Inductive response : Type :=
| OpenFails
| ReadFails
| Body (content : bytes).

Inductive art_message : Type :=
| Skipping (suffix : str)
| Downloading (url : str)
| Saved (label : str)
| Failed (label : str)
| AllDone.

Inductive art_event : Type :=
| GridMakedirs (path : str)
| Urlopen (url : str)
| OpenForWrite (path : str)
| WriteBody (path : str) (content : bytes)
| Say (m : art_message).

Record session : Type := Session {
  s_files : gmap str bytes;
  s_dirs : gset str;
  s_log : list art_event
}.

Definition say (m : art_message) (s : session) : session :=
  Session (s_files s) (s_dirs s) (s_log s ++ [Say m]).

(** [suffix or 'main'] *)
Definition image_label (suffix : str) : str :=
  if bool_decide (suffix = []) then slit "main" else suffix.

(** [ext = ".ico" if url.endswith(".ico") else ".png"] *)
Definition image_ext (url : str) : str :=
  if str_endswith url (slit ".ico") then slit ".ico" else slit ".png".

(** [path = os.path.join(grid_dir, f"{appid}{suffix}{ext}")] *)
Definition image_path (grid_dir : str) (id : Z) (item : str * str) : str :=
  path_join grid_dir [str_of_int id ++ item.1 ++ image_ext item.2].

(** One turn of the loop.  In [with urlopen(req) as resp, open(path, "wb")
    as out: out.write(resp.read())] the file is opened, and so created
    empty, before the body is read. *)
Definition image_step (net : str -> response) (grid_dir : str) (id : Z)
    (s : session) (item : str * str) : session :=
  let '(suffix, url) := item in
  let path := image_path grid_dir id item in
  if os_path_exists path (s_files s) (s_dirs s) then say (Skipping suffix) s
  else
    let s := say (Downloading url) s in
    let s := Session (s_files s) (s_dirs s) (s_log s ++ [Urlopen url]) in
    match net url with
    | OpenFails => say (Failed (image_label suffix)) s
    | ReadFails =>
        say (Failed (image_label suffix))
          (Session (<[path := []]> (s_files s)) (s_dirs s)
             (s_log s ++ [OpenForWrite path]))
    | Body content =>
        say (Saved (image_label suffix))
          (Session (<[path := content]> (s_files s)) (s_dirs s)
             (s_log s ++ [OpenForWrite path; WriteBody path content]))
    end.

Definition image_loop (net : str -> response) (grid_dir : str) (id : Z)
    (items : list (str * str)) (s : session) : session :=
  fold_left (image_step net grid_dir id) items s.

(** From [grid_dir = ...] to the last [print]. *)
Definition artwork (net : str -> response) (userdata user_id : str) (id : Z)
    (s : session) : session :=
  let grid_dir :=
    path_join userdata [user_id; slit "config"; slit "grid"] in
  let s := Session (s_files s) ({[grid_dir]} ∪ s_dirs s)
             (s_log s ++ [GridMakedirs grid_dir]) in
  say AllDone (image_loop net grid_dir id STEAMGRIDDB_IMAGES s).

(** The URLs that were requested, in order. *)
Fixpoint opened (log : list art_event) : list str :=
  match log with
  | [] => []
  | Urlopen url :: log' => url :: opened log'
  | _ :: log' => opened log'
  end.

(** The image of [item] is not there yet. *)
Definition image_missing (grid_dir : str) (id : Z) (s : session)
    (item : str * str) : bool :=
  negb (os_path_exists (image_path grid_dir id item) (s_files s) (s_dirs s)).

(** What is stored for a request that was made. *)
Definition stored (r : response) : option bytes :=
  match r with
  | OpenFails => None
  | ReadFails => Some []
  | Body content => Some content
  end.

Definition open_fails (r : response) : bool :=
  match r with
  | OpenFails => true
  | _ => false
  end.

(** ** The whole script *)

Inductive script_end : Type :=
| Completed
| Stopped (status : Z).

Record script_result : Type := ScriptResult {
  r_messages : list startup_message;
  r_trace : list event;
  r_log : list art_event;
  r_files : gmap str bytes;
  r_dirs : gset str;
  r_end : script_end
}.

Definition script (expanduser : str -> str) (listdir : str -> list str)
    (char_isdigit : N -> bool) (net : str -> response)
    (argv : list str) (w : world) : script_result :=
  match startup expanduser listdir char_isdigit argv w with
  | (msgs, Ready EXE STARTDIR userdata user_id) =>
      let config_dir := config_dir_of userdata user_id in
      match main config_dir EXE STARTDIR w with
      | (w1, Continues) =>
          match appid APPNAME EXE with
          | Ok id =>
              let s := artwork net userdata user_id id
                         (Session (files w1) (dirs w1) []) in
              ScriptResult msgs (trace w1) (s_log s) (s_files s) (s_dirs s)
                Completed
          | Raise _ =>
              ScriptResult msgs (trace w1) [] (files w1) (dirs w1) (Stopped 1)
          end
      | (w1, Exit status) =>
          ScriptResult msgs (trace w1) [] (files w1) (dirs w1) (Stopped status)
      | (w1, Uncaught _) =>
          ScriptResult msgs (trace w1) [] (files w1) (dirs w1) (Stopped 1)
      end
  | (msgs, Quit status) =>
      ScriptResult msgs (trace w) [] (files w) (dirs w) (Stopped status)
  | (msgs, ListdirNotADirectory) =>
      ScriptResult msgs (trace w) [] (files w) (dirs w) (Stopped 1)
  end.

(** ** Checks of the built-ins on known values *)

Example crc32_check_value : crc32 (lit "123456789") = 0xCBF43926%Z.
Proof. vm_compute. reflexivity. Qed.

Example encode_ascii_exe : encode (slit "exe") = Ok (lit "exe").
Proof. vm_compute. reflexivity. Qed.

Example encode_euro_sign : encode [0x20AC%N] = Ok [xe2; x82; xac].
Proof. vm_compute. reflexivity. Qed.

Example encode_lone_surrogate : encode [0xD800%N] = Raise UnicodeEncodeError.
Proof. vm_compute. reflexivity. Qed.

Example str_of_int_examples :
  str_of_int 0 = slit "0" /\ str_of_int 2025 = slit "2025" /\
  str_of_int (-5) = slit "-5" /\ str_of_int 4122607667 = slit "4122607667".
Proof. vm_compute. repeat split. Qed.

Example endswith_examples :
  endswith (lit "ab" ++ [x08; x08]) [x08; x08] = true /\
  endswith [x08] [x08; x08] = false /\
  endswith [x08; x08; x00] [x08; x08] = false.
Proof. vm_compute. repeat split. Qed.

Example findall_examples :
  findall ([x00; x00] ++ lit "1" ++ [x00; x00] ++ lit "23" ++ [x00]
           ++ lit "x" ++ [x00; xb2; x00])
  = [lit "1"; lit "23"] /\
  findall ([x00] ++ lit "12") = [] /\
  findall ([x00] ++ lit "1a" ++ [x00]) = [].
Proof. vm_compute. repeat split. Qed.

(** ** Slicing and the terminator *)

Lemma endswith_true (data sfx : bytes) :
  endswith data sfx = true <-> exists pre, data = pre ++ sfx.
Proof.
  unfold endswith. rewrite bool_decide_eq_true. split.
  - intros H. exists (take (length data - length sfx) data).
    set (n := length data - length sfx) in *.
    rewrite <- H. symmetry. apply take_drop.
  - intros [pre ->]. rewrite length_app.
    replace (length pre + length sfx - length sfx) with (length pre) by lia.
    apply drop_app_length.
Qed.

Lemma slice_to_neg_app (pre sfx : bytes) :
  slice_to_neg (length sfx) (pre ++ sfx) = pre.
Proof.
  unfold slice_to_neg. rewrite length_app.
  replace (length pre + length sfx - length sfx) with (length pre) by lia.
  apply take_app_length.
Qed.

Lemma slice_from_neg_app (pre sfx : bytes) :
  slice_from_neg (length sfx) (pre ++ sfx) = sfx.
Proof.
  unfold slice_from_neg. rewrite length_app.
  replace (length pre + length sfx - length sfx) with (length pre) by lia.
  apply drop_app_length.
Qed.

Lemma new_data_app (pre entry : bytes) :
  new_data (pre ++ [x08; x08]) entry = pre ++ entry ++ [x08; x08].
Proof.
  unfold new_data.
  pose proof (slice_to_neg_app pre [x08; x08]) as H. simpl in H.
  rewrite H. reflexivity.
Qed.

Lemma new_data_endswith (data entry : bytes) :
  endswith (new_data data entry) [x08; x08] = true.
Proof.
  apply endswith_true. exists (slice_to_neg 2 data ++ entry).
  unfold new_data. rewrite <- app_assoc. reflexivity.
Qed.

(** ** Opening the database *)

Section Store.

Variable config_dir : str.
#[local] Abbreviation sf := (shortcuts_file config_dir).

Lemma ensure_exists_present (w : world) (data : bytes) :
  files w !! sf = Some data -> ensure_exists config_dir w = w.
Proof.
  intros H. unfold ensure_exists, path_exists.
  rewrite bool_decide_eq_true_2; [reflexivity | by rewrite H].
Qed.

Lemma ensure_exists_absent (w : world) :
  files w !! sf = None ->
  ensure_exists config_dir w =
    write_file sf skeleton (makedirs config_dir w).
Proof.
  intros H. unfold ensure_exists, path_exists.
  rewrite bool_decide_eq_false_2; [reflexivity |].
  rewrite H. by intros [? ?].
Qed.

Lemma open_shortcuts_present (w : world) (data : bytes) :
  files w !! sf = Some data ->
  open_shortcuts config_dir w =
    (World (files w) (dirs w) (trace w ++ [ReadFile sf]), Ok data).
Proof.
  intros H. unfold open_shortcuts. rewrite (ensure_exists_present w data H).
  unfold read_file. rewrite H. reflexivity.
Qed.

Lemma open_shortcuts_absent (w : world) :
  files w !! sf = None ->
  open_shortcuts config_dir w =
    (World (<[sf := skeleton]> (files w)) ({[config_dir]} ∪ dirs w)
           (trace w ++ [Makedirs config_dir; WriteFile sf skeleton; ReadFile sf]),
     Ok skeleton).
Proof.
  intros H. unfold open_shortcuts. rewrite (ensure_exists_absent w H).
  unfold read_file, write_file, makedirs. cbn [files dirs trace].
  rewrite lookup_insert_eq. rewrite <- !app_assoc. reflexivity.
Qed.

Lemma main_present (EXE STARTDIR : str) (w : world) (data : bytes) :
  files w !! sf = Some data ->
  main config_dir EXE STARTDIR w =
    after_open config_dir EXE STARTDIR data
      (World (files w) (dirs w) (trace w ++ [ReadFile sf])).
Proof.
  intros H. unfold main. rewrite (open_shortcuts_present w data H).
  reflexivity.
Qed.

Lemma main_absent (EXE STARTDIR : str) (w : world) :
  files w !! sf = None ->
  main config_dir EXE STARTDIR w =
    after_open config_dir EXE STARTDIR skeleton
      (World (<[sf := skeleton]> (files w)) ({[config_dir]} ∪ dirs w)
         (trace w ++ [Makedirs config_dir; WriteFile sf skeleton; ReadFile sf])).
Proof.
  intros H. unfold main. rewrite (open_shortcuts_absent w H). reflexivity.
Qed.

Lemma insert_entry_rejects (data entry : bytes) (index id : Z) (w : world) :
  endswith data [x08; x08] = false ->
  insert_entry config_dir data entry index id w
  = (print MsgNotRecognized w, Exit 1).
Proof. intros H. unfold insert_entry. rewrite H. reflexivity. Qed.

Lemma insert_entry_accepts (data entry : bytes) (index id : Z) (w : world) :
  endswith data [x08; x08] = true ->
  insert_entry config_dir data entry index id w
  = (print (MsgAdded index id) (write_file sf (new_data data entry) w),
     Continues).
Proof. intros H. unfold insert_entry. rewrite H. reflexivity. Qed.

End Store.

(** ** Splicing a record in *)

(** C1. For a blob [B] that ends with the terminator [08 08] and any record
    [R], the inserted data is [B[:-2] + R + B[-2:]]: the content of [B]
    before the terminator is kept as it is, [R] follows it, and the
    terminator closes the result.  This is what the script writes to the
    file. *)
Theorem C1_splice_correct (config_dir : str) (B R : bytes) (index id : Z)
    (w : world) :
  endswith B [x08; x08] = true ->
  new_data B R = slice_to_neg 2 B ++ R ++ slice_from_neg 2 B /\
  (exists B0, B = B0 ++ [x08; x08] /\ new_data B R = B0 ++ R ++ [x08; x08]) /\
  length (new_data B R) = length B + length R /\
  insert_entry config_dir B R index id w
  = (print (MsgAdded index id)
       (write_file (shortcuts_file config_dir) (new_data B R) w), Continues) /\
  files (insert_entry config_dir B R index id w).1
    !! shortcuts_file config_dir = Some (new_data B R).
Proof.
  intros Hend. pose proof Hend as [B0 ->]%endswith_true.
  pose proof (slice_from_neg_app B0 [x08; x08]) as Hfrom. simpl in Hfrom.
  rewrite new_data_app, Hfrom.
  pose proof (slice_to_neg_app B0 [x08; x08]) as Hto. simpl in Hto.
  rewrite Hto. split; [reflexivity |].
  split; [by exists B0 |].
  split; [rewrite !length_app; simpl; lia |].
  rewrite (insert_entry_accepts _ _ _ _ _ _ Hend), new_data_app.
  split; [reflexivity |].
  cbn [fst print write_file files]. apply lookup_insert_eq.
Qed.

Lemma C1_splice_correct_witness :
  endswith skeleton [x08; x08] = true /\
  new_data skeleton (lit "R") = [x00] ++ lit "shortcuts" ++ [x00] ++ lit "R"
                                 ++ [x08; x08].
Proof.
  split; [reflexivity |].
  destruct (C1_splice_correct [] skeleton (lit "R") 0 0 (World ∅ ∅ []))
    as (H & _); [reflexivity |].
  rewrite H. reflexivity.
Defined.

(** C2. When the data read from the file does not end with [08 08], the
    insertion is refused: the script prints that the file structure is not
    recognised and calls [exit(1)]; nothing is written, so the files are
    exactly what they were.  Whatever else happens on the way (an argument
    that cannot be encoded), the run ends with status 1 and without a
    write. *)
Theorem C2_structure_rejection (config_dir EXE STARTDIR : str) (w : world)
    (data : bytes) :
  files w !! shortcuts_file config_dir = Some data ->
  endswith data [x08; x08] = false ->
  (forall entry index id w0,
     insert_entry config_dir data entry index id w0
     = (print MsgNotRecognized w0, Exit 1)) /\
  files (main config_dir EXE STARTDIR w).1 = files w /\
  dirs (main config_dir EXE STARTDIR w).1 = dirs w /\
  exit_status (main config_dir EXE STARTDIR w).2 = Some 1%Z /\
  (exists evs,
     trace (main config_dir EXE STARTDIR w).1 = trace w ++ evs /\
     forall path content, WriteFile path content ∉ evs) /\
  (forall id entry,
     appid APPNAME EXE = Ok id ->
     make_entry config_dir (get_latest_index data + 1) id APPNAME EXE STARTDIR
     = Ok entry ->
     main config_dir EXE STARTDIR w
     = (World (files w) (dirs w)
          (trace w ++ [ReadFile (shortcuts_file config_dir);
                       Print MsgNotRecognized]),
        Exit 1)).
Proof.
  intros Hfile Hend.
  split; [intros; by apply insert_entry_rejects |].
  rewrite (main_present _ _ _ _ _ Hfile). unfold after_open.
  destruct (appid APPNAME EXE) as [id | e]; cbn [fst snd files dirs trace].
  - destruct (make_entry _ _ _ _ _ _) as [entry | e] eqn:Hme;
      cbn [fst snd files dirs trace].
    + rewrite (insert_entry_rejects _ _ _ _ _ _ Hend).
      cbn [fst snd print files dirs trace exit_status].
      repeat split.
      * eexists. rewrite <- app_assoc. split; [reflexivity |].
        intros path content Hin. simpl in Hin.
        apply elem_of_cons in Hin as [Hin | Hin]; [discriminate |].
        apply elem_of_cons in Hin as [Hin | Hin]; [discriminate |].
        by apply elem_of_nil in Hin.
      * intros id' entry' _ _. unfold print. cbn [files dirs trace].
        rewrite <- app_assoc. reflexivity.
    + repeat split.
      * eexists. split; [reflexivity |].
        intros path content Hin.
        apply elem_of_cons in Hin as [Hin | Hin]; [discriminate |].
        by apply elem_of_nil in Hin.
      * intros id' entry' [= <-] Hentry. rewrite Hme in Hentry.
        discriminate.
  - repeat split.
    + eexists. split; [reflexivity |].
      intros path content Hin.
      apply elem_of_cons in Hin as [Hin | Hin]; [discriminate |].
      by apply elem_of_nil in Hin.
    + intros id' entry' Hid. discriminate.
Qed.

Lemma C2_structure_rejection_witness :
  let cfg := slit "/c" in
  let w := World {[shortcuts_file cfg := lit "junk"]} ∅ [] in
  files w !! shortcuts_file cfg = Some (lit "junk") /\
  endswith (lit "junk") [x08; x08] = false /\
  files (main cfg (slit "/e") (slit "/d") w).1 = files w /\
  exit_status (main cfg (slit "/e") (slit "/d") w).2 = Some 1%Z.
Proof.
  intros cfg w.
  assert (Hfile : files w !! shortcuts_file cfg = Some (lit "junk"))
    by (vm_compute; reflexivity).
  assert (Hend : endswith (lit "junk") [x08; x08] = false) by reflexivity.
  destruct (C2_structure_rejection cfg (slit "/e") (slit "/d") w (lit "junk")
              Hfile Hend) as (_ & Hfiles & _ & Hexit & _).
  exact (conj Hfile (conj Hend (conj Hfiles Hexit))).
Defined.

(** ** Creating and reading the file *)

(** C8 as stated fails on the offsets: the new file holds 13 bytes, byte 11
    is [08] and not [00], and there is no byte 13. *)
Lemma C8_counterexample :
  let w := World ∅ ∅ [] in
  exists d,
    (open_shortcuts (slit "/c") w).2 = Ok d /\
    d !! 0 = Some x00 /\
    take 9 (drop 1 d) = lit "shortcuts" /\
    d !! 11 = Some x08 /\ d !! 11 <> Some x00 /\
    d !! 13 = None /\ d !! 13 <> Some x08.
Proof.
  exists skeleton. vm_compute. repeat split; discriminate.
Qed.

(** C8, amended. When the file does not exist, the script creates the
    directory, writes the skeleton with one write, and reads it back; the
    skeleton has 13 bytes: byte 0 is [00], bytes 1 to 9 are ["shortcuts"],
    byte 10 is [00], bytes 11 and 12 are [08 08].  When the file exists its
    content is returned as it is and nothing is written. *)
Theorem C8_open_shortcuts (config_dir : str) (w : world) :
  (files w !! shortcuts_file config_dir = None ->
   open_shortcuts config_dir w
   = (World (<[shortcuts_file config_dir := skeleton]> (files w))
        ({[config_dir]} ∪ dirs w)
        (trace w ++ [Makedirs config_dir;
                     WriteFile (shortcuts_file config_dir) skeleton;
                     ReadFile (shortcuts_file config_dir)]),
      Ok skeleton)) /\
  (forall data,
     files w !! shortcuts_file config_dir = Some data ->
     open_shortcuts config_dir w
     = (World (files w) (dirs w)
          (trace w ++ [ReadFile (shortcuts_file config_dir)]),
        Ok data)) /\
  length skeleton = 13 /\
  skeleton !! 0 = Some x00 /\
  take 9 (drop 1 skeleton) = lit "shortcuts" /\
  skeleton !! 10 = Some x00 /\
  skeleton !! 11 = Some x08 /\
  skeleton !! 12 = Some x08.
Proof.
  split; [apply open_shortcuts_absent |].
  split; [intros data; apply open_shortcuts_present |].
  repeat split.
Qed.

Lemma C8_open_shortcuts_witness :
  let cfg := slit "/c" in
  let w := World {[shortcuts_file cfg := lit "old"]} ∅ [] in
  (open_shortcuts cfg (World ∅ ∅ [])).2 = Ok skeleton /\
  (open_shortcuts cfg w).2 = Ok (lit "old").
Proof.
  intros cfg w. split.
  - destruct (C8_open_shortcuts cfg (World ∅ ∅ [])) as (H & _).
    rewrite H; [reflexivity | vm_compute; reflexivity].
  - destruct (C8_open_shortcuts cfg w) as (_ & H & _).
    rewrite (H (lit "old")); [reflexivity | vm_compute; reflexivity].
Defined.

(** ** The terminator is kept *)

Lemma skeleton_endswith : endswith skeleton [x08; x08] = true.
Proof. reflexivity. Qed.

Section Invariant.

Variable config_dir : str.
#[local] Abbreviation sf := (shortcuts_file config_dir).

(** Every write of [after_open] stores terminated data in [sf]. *)
Lemma after_open_files (EXE STARTDIR : str) (data : bytes) (w : world) :
  let r := after_open config_dir EXE STARTDIR data w in
  (files r.1 = files w /\ r.2 <> Continues /\
   (endswith data [x08; x08] = true -> exists e, r.2 = Uncaught e) /\
   exists evs, trace r.1 = trace w ++ evs /\
               forall p c, WriteFile p c ∉ evs) \/
  (exists entry index id,
     endswith data [x08; x08] = true /\ r.2 = Continues /\
     files r.1 = <[sf := new_data data entry]> (files w) /\
     trace r.1 = trace w ++ [WriteFile sf (new_data data entry);
                             Print (MsgAdded index id)]).
Proof.
  unfold after_open.
  destruct (appid APPNAME EXE) as [id | e].
  - destruct (make_entry _ _ _ _ _ _) as [entry | e].
    + unfold insert_entry.
      destruct (endswith data [x08; x08]) eqn:Hend.
      * right. exists entry, (get_latest_index data + 1)%Z, id.
        cbn [fst snd print write_file files trace].
        rewrite <- app_assoc. repeat split.
      * left. cbn [fst snd print files trace].
        repeat split; try discriminate.
        exists [Print MsgNotRecognized]. split; [reflexivity |].
        intros p c Hin.
        apply elem_of_cons in Hin as [Hin | Hin]; [discriminate |].
        by apply elem_of_nil in Hin.
    + left. cbn [fst snd]. repeat split; try discriminate; eauto.
      exists []. split; [by rewrite app_nil_r |].
      intros p c Hin. by apply elem_of_nil in Hin.
  - left. cbn [fst snd]. repeat split; try discriminate; eauto.
    exists []. split; [by rewrite app_nil_r |].
    intros p c Hin. by apply elem_of_nil in Hin.
Qed.

Lemma after_open_well_terminated (EXE STARTDIR : str) (data : bytes)
    (w : world) :
  well_terminated config_dir w ->
  well_terminated config_dir (after_open config_dir EXE STARTDIR data w).1.
Proof.
  intros Hw.
  destruct (after_open_files EXE STARTDIR data w)
    as [(Hf & _) | (entry & index & id & _ & _ & Hf & _)];
    unfold well_terminated; rewrite Hf; [exact Hw |].
  intros d. rewrite lookup_insert_eq. intros [= <-].
  apply new_data_endswith.
Qed.

Lemma main_well_terminated (EXE STARTDIR : str) (w : world) :
  well_terminated config_dir w ->
  well_terminated config_dir (main config_dir EXE STARTDIR w).1.
Proof.
  intros Hw. destruct (files w !! sf) as [data |] eqn:Hfile.
  - rewrite (main_present _ _ _ _ _ Hfile).
    apply after_open_well_terminated.
    intros d. cbn [files]. apply Hw.
  - rewrite (main_absent _ _ _ _ Hfile).
    apply after_open_well_terminated.
    intros d. cbn [files]. rewrite lookup_insert_eq.
    intros [= <-]. apply skeleton_endswith.
Qed.

Lemma main_never_rejects (EXE STARTDIR : str) (w : world) :
  well_terminated config_dir w ->
  forall status, (main config_dir EXE STARTDIR w).2 <> Exit status.
Proof.
  intros Hw status.
  assert (Hgen : forall data w0, endswith data [x08; x08] = true ->
            (after_open config_dir EXE STARTDIR data w0).2 <> Exit status).
  { intros data w0 Hend.
    destruct (after_open_files EXE STARTDIR data w0)
      as [(_ & _ & He & _) | (entry & index & id & _ & Ho & _)].
    - destruct (He Hend) as [e ->]. discriminate.
    - rewrite Ho. discriminate. }
  destruct (files w !! sf) as [data |] eqn:Hfile.
  - rewrite (main_present _ _ _ _ _ Hfile). apply Hgen, (Hw data Hfile).
  - rewrite (main_absent _ _ _ _ Hfile). apply Hgen, skeleton_endswith.
Qed.

Lemma runs_well_terminated (args : list (str * str)) :
  forall w,
    well_terminated config_dir w ->
    well_terminated config_dir (runs config_dir args w).1 /\
    Forall (fun o => forall status, o <> Exit status)
           (runs config_dir args w).2.
Proof.
  induction args as [| [EXE STARTDIR] args IH]; intros w Hw.
  - split; [exact Hw | constructor].
  - cbn [runs].
    pose proof (main_well_terminated EXE STARTDIR w Hw) as Hw1.
    pose proof (main_never_rejects EXE STARTDIR w Hw) as Ho.
    destruct (main config_dir EXE STARTDIR w) as [w1 o].
    specialize (IH w1 Hw1).
    destruct (runs config_dir args w1) as [w2 os].
    cbn [fst snd] in *. destruct IH as [IH1 IH2].
    split; [exact IH1 | by constructor].
Qed.

End Invariant.

Lemma main_writes_terminated (config_dir EXE STARTDIR : str) (w : world) :
  exists evs,
    trace (main config_dir EXE STARTDIR w).1 = trace w ++ evs /\
    forall path content,
      WriteFile path content ∈ evs ->
      path = shortcuts_file config_dir /\
      endswith content [x08; x08] = true.
Proof.
  set (sf := shortcuts_file config_dir).
  assert (Hgen : forall data w0 pre,
            trace w0 = trace w ++ pre ->
            (forall p c, WriteFile p c ∈ pre ->
                         p = sf /\ endswith c [x08; x08] = true) ->
            exists evs,
              trace (after_open config_dir EXE STARTDIR data w0).1
              = trace w ++ evs /\
              forall p c, WriteFile p c ∈ evs ->
                          p = sf /\ endswith c [x08; x08] = true).
  { intros data w0 pre Hpre Hok.
    destruct (after_open_files config_dir EXE STARTDIR data w0)
      as [(_ & _ & _ & evs & Ht & Hno)
         | (entry & index & id & _ & _ & _ & Ht)];
      rewrite Ht, Hpre, <- app_assoc; eexists; (split; [reflexivity |]);
      intros p c [Hin | Hin]%elem_of_app; auto.
    - by apply Hno in Hin.
    - apply elem_of_cons in Hin as [[= -> ->] | Hin].
      + split; [reflexivity | apply new_data_endswith].
      + apply elem_of_cons in Hin as [Hin | Hin]; [discriminate |].
        by apply elem_of_nil in Hin. }
  destruct (files w !! sf) as [data |] eqn:Hfile.
  - rewrite (main_present _ _ _ _ _ Hfile).
    apply (Hgen data _ [ReadFile sf]); [reflexivity |].
    intros p c Hin.
    apply elem_of_cons in Hin as [Hin | Hin]; [discriminate |].
    by apply elem_of_nil in Hin.
  - rewrite (main_absent _ _ _ _ Hfile).
    apply (Hgen skeleton _ [Makedirs config_dir; WriteFile sf skeleton;
                            ReadFile sf]); [reflexivity |].
    intros p c Hin.
    apply elem_of_cons in Hin as [Hin | Hin]; [discriminate |].
    apply elem_of_cons in Hin as [[= -> ->] | Hin];
      [split; [reflexivity | apply skeleton_endswith] |].
    apply elem_of_cons in Hin as [Hin | Hin]; [discriminate |].
    by apply elem_of_nil in Hin.
Qed.

(** C9. The terminator is an invariant of what the script stores: the
    skeleton ends with [08 08]; inserting into data that ends with [08 08]
    gives data that ends with [08 08]; whatever a run writes ends with
    [08 08]; and from a world in which the file is absent or terminated, any
    sequence of runs keeps it terminated and no run ever takes the
    "file structure not recognized" exit. *)
Theorem C9_terminator_invariant (config_dir EXE STARTDIR : str)
    (args : list (str * str)) (w : world) :
  endswith skeleton [x08; x08] = true /\
  (forall B R, endswith B [x08; x08] = true ->
               endswith (new_data B R) [x08; x08] = true) /\
  (exists evs,
     trace (main config_dir EXE STARTDIR w).1 = trace w ++ evs /\
     forall path content,
       WriteFile path content ∈ evs ->
       path = shortcuts_file config_dir /\
       endswith content [x08; x08] = true) /\
  (well_terminated config_dir w ->
   well_terminated config_dir (main config_dir EXE STARTDIR w).1 /\
   (forall status, (main config_dir EXE STARTDIR w).2 <> Exit status) /\
   well_terminated config_dir (runs config_dir args w).1 /\
   Forall (fun o => forall status, o <> Exit status)
          (runs config_dir args w).2) /\
  (files w !! shortcuts_file config_dir = None ->
   well_terminated config_dir w).
Proof.
  split; [apply skeleton_endswith |].
  split; [intros B R _; apply new_data_endswith |].
  split; [apply main_writes_terminated |].
  split.
  - intros Hw.
    split; [by apply main_well_terminated |].
    split; [by apply main_never_rejects |].
    by apply runs_well_terminated.
  - intros Hnone data Hsome. rewrite Hnone in Hsome. discriminate.
Qed.

Lemma C9_terminator_invariant_witness :
  let cfg := slit "/c" in
  let w := World ∅ ∅ [] in
  let args := [(slit "/e", slit "/d"); (slit "/e", slit "/d")] in
  endswith skeleton [x08; x08] = true /\
  well_terminated cfg w /\
  Forall (fun o => forall status, o <> Exit status) (runs cfg args w).2.
Proof.
  intros cfg w args.
  destruct (C9_terminator_invariant cfg (slit "/e") (slit "/d") args w)
    as (Hs & _ & _ & Hinv & Habsent).
  assert (Hw : well_terminated cfg w)
    by (apply Habsent; vm_compute; reflexivity).
  destruct (Hinv Hw) as (_ & _ & _ & Hruns).
  exact (conj Hs (conj Hw Hruns)).
Defined.

(** ** Decimal text of an integer *)

Lemma str_of_N_aux_spec (fuel : nat) :
  forall (n : N) (acc : str),
    (n < 2 ^ N.of_nat fuel)%N -> fuel <> 0 ->
    exists ds,
      str_of_N_aux fuel n acc = ds ++ acc /\
      Forall digit_char ds /\
      digits_value ds = n /\
      (exists d ds', ds = d :: ds' /\ (n <> 0%N -> d <> 48%N) /\
                     (n = 0%N -> ds' = [])).
Proof.
  induction fuel as [| fuel IH]; intros n acc Hn Hfuel; [congruence |].
  cbn [str_of_N_aux].
  assert (Hmod : (n mod 10 < 10)%N) by (apply N.mod_lt; lia).
  pose proof (N.div_mod n 10 ltac:(lia)) as Hdm.
  assert (Hdiv : (n / 10 = 0 <-> n < 10)%N) by (apply N.div_small_iff; lia).
  assert (Hhalf : (n < 2 * 2 ^ N.of_nat fuel ->
                   n / 10 < 2 ^ N.of_nat fuel)%N).
  { intros H. apply N.Div0.div_lt_upper_bound. lia. }
  set (r := (n mod 10)%N) in *. set (q := (n / 10)%N) in *.
  assert (Hdig : digit_char (48 + r)) by (unfold digit_char; lia).
  destruct (N.eqb_spec q 0) as [Hq | Hq].
  - exists [(48 + r)%N]. split; [reflexivity |].
    split; [constructor; [exact Hdig | constructor] |].
    split; [unfold digits_value; cbn; lia |].
    exists (48 + r)%N, []. split; [reflexivity |].
    split; [lia | reflexivity].
  - assert (Hfuel' : fuel <> 0).
    { intros ->. change (2 ^ N.of_nat 1)%N with 2%N in Hn. lia. }
    assert (Hn' : (q < 2 ^ N.of_nat fuel)%N).
    { apply Hhalf. rewrite Nat2N.inj_succ, N.pow_succ_r' in Hn. exact Hn. }
    destruct (IH q ((48 + r)%N :: acc) Hn' Hfuel')
      as (ds & Heq & Hds & Hval & d & ds' & -> & Hd & _).
    exists ((d :: ds') ++ [(48 + r)%N]). rewrite Heq.
    split; [by rewrite <- app_assoc |].
    split.
    { apply Forall_app. split; [exact Hds |].
      constructor; [exact Hdig | constructor]. }
    split.
    { unfold digits_value in *. rewrite fold_left_app, Hval. cbn. lia. }
    exists d, (ds' ++ [(48 + r)%N]). split; [reflexivity |].
    split; [intros _; by apply Hd |].
    intros ->. exfalso. lia.
Qed.

Lemma pos_size_nat_gt (p : positive) :
  (Npos p < 2 ^ N.of_nat (Pos.size_nat p))%N.
Proof.
  induction p as [p IH | p IH |]; cbn [Pos.size_nat];
    rewrite ?Nat2N.inj_succ, ?N.pow_succ_r'; cbn; lia.
Qed.

Lemma str_of_N_spec (n : N) :
  Forall digit_char (str_of_N n) /\
  digits_value (str_of_N n) = n /\
  (exists d ds', str_of_N n = d :: ds' /\ (n <> 0%N -> d <> 48%N) /\
                 (n = 0%N -> ds' = [])).
Proof.
  unfold str_of_N.
  destruct (str_of_N_aux_spec (S (N.size_nat n)) n []) as (ds & Heq & H);
    [| lia | rewrite Heq, app_nil_r; exact H].
  rewrite Nat2N.inj_succ, N.pow_succ_r'.
  destruct n as [| p]; [reflexivity |].
  pose proof (pos_size_nat_gt p) as Hsz. cbn [N.size_nat]. lia.
Qed.

(** ** Bytes and their values *)

Lemma to_N_byte_of_N (n : N) : (n < 256)%N -> Byte.to_N (byte_of_N n) = n.
Proof.
  intros Hn. unfold byte_of_N.
  destruct (Byte.of_N n) as [b |] eqn:Hb.
  - by apply Byte.to_of_N.
  - apply Byte.of_N_None_iff in Hb. lia.
Qed.

Lemma byte_of_N_to_N (b : byte) : byte_of_N (Byte.to_N b) = b.
Proof. unfold byte_of_N. by rewrite Byte.of_to_N. Qed.

Lemma to_N_inj (a b : byte) : Byte.to_N a = Byte.to_N b -> a = b.
Proof.
  intros H. rewrite <- (byte_of_N_to_N a), <- (byte_of_N_to_N b).
  by rewrite H.
Qed.

(** ** [str.encode] *)

Lemma encode_app (a b : str) :
  encode (a ++ b) = (ra ← encode a; rb ← encode b; Ok (ra ++ rb)).
Proof.
  induction a as [| c a IH]; cbn [encode app].
  - destruct (encode b); reflexivity.
  - destruct (utf8_char c) as [bs |]; cbn; [| reflexivity].
    rewrite IH. destruct (encode a) as [ra |]; cbn; [| reflexivity].
    destruct (encode b) as [rb |]; cbn; [| reflexivity].
    by rewrite app_assoc.
Qed.

Lemma encode_app_Ok (a b : str) (ra rb : bytes) :
  encode a = Ok ra -> encode b = Ok rb -> encode (a ++ b) = Ok (ra ++ rb).
Proof. intros Ha Hb. rewrite encode_app, Ha, Hb. reflexivity. Qed.

Lemma encode_app_inv (a b : str) (r : bytes) :
  encode (a ++ b) = Ok r ->
  exists ra rb, encode a = Ok ra /\ encode b = Ok rb /\ r = ra ++ rb.
Proof.
  rewrite encode_app.
  destruct (encode a) as [ra |]; cbn; [| discriminate].
  destruct (encode b) as [rb |]; cbn; [| discriminate].
  intros [= <-]. by exists ra, rb.
Qed.

Lemma encode_ascii (s : str) :
  Forall (fun c => c < 128)%N s -> encode s = Ok (map byte_of_N s).
Proof.
  induction 1 as [| c s Hc _ IH]; [reflexivity |].
  cbn [encode map]. unfold utf8_char.
  destruct (N.ltb_spec c 0x80) as [_ | Hge]; [| lia].
  cbn. rewrite IH. reflexivity.
Qed.

Lemma utf8_char_total (c : N) :
  scalar_value c -> exists bs, utf8_char c = Ok bs.
Proof.
  unfold scalar_value, utf8_char. intros Hc.
  destruct (N.ltb_spec c 0x80); [eauto |].
  destruct (N.ltb_spec c 0x800); [eauto |].
  destruct (N.ltb_spec c 0x10000).
  - destruct (N.leb_spec 0xD800 c); destruct (N.leb_spec c 0xDFFF);
      cbn; eauto; lia.
  - destruct (N.ltb_spec c 0x110000); [eauto | lia].
Qed.

Lemma encode_total (s : str) :
  Forall scalar_value s -> exists bs, encode s = Ok bs.
Proof.
  induction 1 as [| c s Hc _ [rest IH]]; [by exists [] |].
  destruct (utf8_char_total c Hc) as [bs Hbs].
  exists (bs ++ rest). cbn [encode]. rewrite Hbs, IH. reflexivity.
Qed.

(** ** Decimal text as bytes *)

Lemma digit_char_ascii (cs : str) :
  Forall digit_char cs -> Forall (fun c => c < 128)%N cs.
Proof.
  intros H. eapply Forall_impl; [exact H |].
  unfold digit_char. intros c Hc. lia.
Qed.

Lemma int_of_digits_map (cs : str) :
  Forall digit_char cs ->
  int_of_digits (map byte_of_N cs) = Z.of_N (digits_value cs).
Proof.
  unfold int_of_digits, digits_value.
  change 0%Z with (Z.of_N 0). generalize 0%N as acc.
  induction cs as [| c cs IH]; intros acc Hcs; [reflexivity |].
  apply Forall_cons in Hcs as [Hc Hcs]. cbn [map fold_left].
  rewrite <- IH by exact Hcs. f_equal.
  unfold digit_val. rewrite to_N_byte_of_N by (unfold digit_char in Hc; lia).
  unfold digit_char in Hc. lia.
Qed.

Lemma is_digit_byte_of_N (c : N) : digit_char c -> is_digit (byte_of_N c) = true.
Proof.
  unfold digit_char, is_digit. intros Hc.
  rewrite to_N_byte_of_N by lia.
  apply andb_true_iff. split; apply N.leb_le; lia.
Qed.

Lemma encode_str_of_int (z : Z) : encode (str_of_int z) = Ok (decimal z).
Proof.
  apply encode_ascii. unfold str_of_int.
  destruct z as [| p | p].
  - apply digit_char_ascii, str_of_N_spec.
  - apply digit_char_ascii, str_of_N_spec.
  - constructor; [lia |]. apply digit_char_ascii, str_of_N_spec.
Qed.

Lemma decimal_nonneg (z : Z) :
  (0 <= z)%Z ->
  Forall (fun b => is_digit b = true) (decimal z) /\
  int_of_digits (decimal z) = z /\
  (exists d ds, decimal z = d :: ds /\
                (z <> 0%Z -> d <> "0"%byte) /\ (z = 0%Z -> ds = [])).
Proof.
  intros Hz. unfold decimal.
  assert (Hs : str_of_int z = str_of_N (Z.to_N z)) by (destruct z; [done | done | lia]).
  rewrite Hs.
  destruct (str_of_N_spec (Z.to_N z)) as (Hdig & Hval & d & ds & Heq & Hd & Hds).
  split; [| split].
  - rewrite Forall_map. eapply Forall_impl; [exact Hdig |].
    intros c Hc. by apply is_digit_byte_of_N.
  - rewrite int_of_digits_map by exact Hdig. rewrite Hval. lia.
  - exists (byte_of_N d), (map byte_of_N ds). rewrite Heq.
    split; [reflexivity |]. split.
    + intros Hz0 Hb. apply Hd; [lia |].
      rewrite Heq in Hdig. apply Forall_cons in Hdig as [Hc _].
      unfold digit_char in Hc.
      rewrite <- (to_N_byte_of_N d) by lia. rewrite Hb. reflexivity.
    + intros ->. rewrite Hds; reflexivity.
Qed.

(** ** [struct.pack] and [zlib.crc32] *)

Lemma byte_val_land (x : Z) :
  byte_val (byte_of_Z (Z.land x 255)) = (x mod 256)%Z.
Proof.
  unfold byte_val, byte_of_Z.
  change 255%Z with (Z.ones 8). rewrite Z.land_ones by lia.
  change (2 ^ 8)%Z with 256%Z.
  pose proof (Z.mod_pos_bound x 256 ltac:(lia)) as Hm.
  rewrite to_N_byte_of_N by lia. lia.
Qed.

Lemma struct_pack_I_spec (v : Z) :
  (0 <= v < 2 ^ 32)%Z ->
  exists b0 b1 b2 b3,
    struct_pack_I v = Ok [b0; b1; b2; b3] /\
    (v = byte_val b0 + 256 * byte_val b1 + 65536 * byte_val b2
         + 16777216 * byte_val b3)%Z.
Proof.
  intros Hv. unfold struct_pack_I.
  destruct (Z.leb_spec 0 v); [| lia].
  destruct (Z.ltb_spec v (2 ^ 32)); [| lia]. cbn [andb].
  do 4 eexists. split; [reflexivity |].
  rewrite !byte_val_land, !Z.shiftr_div_pow2 by lia.
  change (2 ^ 8)%Z with 256%Z. change (2 ^ 16)%Z with 65536%Z.
  change (2 ^ 24)%Z with 16777216%Z. change (2 ^ 32)%Z with 4294967296%Z in *.
  Z.div_mod_to_equations. lia.
Qed.

Lemma struct_pack_I_out_of_range (v : Z) :
  ~ (0 <= v < 2 ^ 32)%Z -> struct_pack_I v = Raise StructError.
Proof.
  intros Hv. unfold struct_pack_I.
  destruct (Z.leb_spec 0 v); destruct (Z.ltb_spec v (2 ^ 32));
    cbn [andb]; try reflexivity; lia.
Qed.

Lemma u32_log2 (c : Z) : u32 c <-> (0 <= c)%Z /\ (Z.log2 c < 32)%Z.
Proof.
  unfold u32. split.
  - intros [H0 H1]. split; [exact H0 |].
    destruct (Z.eq_dec c 0%Z) as [-> | Hc]; [reflexivity |].
    apply Z.log2_lt_pow2; lia.
  - intros [H0 H1]. split; [exact H0 |].
    destruct (Z.eq_dec c 0%Z) as [-> | Hc]; [reflexivity |].
    apply Z.log2_lt_pow2; lia.
Qed.

Lemma u32_lxor (a b : Z) : u32 a -> u32 b -> u32 (Z.lxor a b).
Proof.
  rewrite !u32_log2. intros [Ha La] [Hb Lb].
  split; [by apply Z.lxor_nonneg |].
  pose proof (Z.log2_lxor a b Ha Hb). lia.
Qed.

Lemma u32_lor (a b : Z) : u32 a -> u32 b -> u32 (Z.lor a b).
Proof.
  rewrite !u32_log2. intros [Ha La] [Hb Lb].
  split; [by apply Z.lor_nonneg |].
  rewrite Z.log2_lor by assumption. lia.
Qed.

Lemma u32_shiftr (a : Z) : u32 a -> u32 (Z.shiftr a 1).
Proof.
  unfold u32. intros Ha. rewrite Z.shiftr_div_pow2 by lia.
  change (2 ^ 1)%Z with 2%Z. change (2 ^ 32)%Z with 4294967296%Z in *.
  Z.div_mod_to_equations. lia.
Qed.

Lemma u32_crc_shift (k : nat) : forall c, u32 c -> u32 (crc_shift k c).
Proof.
  induction k as [| k IH]; intros c Hc; [exact Hc |].
  cbn [crc_shift]. apply IH.
  destruct (Z.testbit c 0).
  - apply u32_lxor; [by apply u32_shiftr | unfold u32; lia].
  - by apply u32_shiftr.
Qed.

Lemma u32_crc_byte (c : Z) (b : byte) : u32 c -> u32 (crc_byte c b).
Proof.
  intros Hc. unfold crc_byte. apply u32_crc_shift, u32_lxor; [exact Hc |].
  pose proof (Byte.to_N_bounded b). unfold u32. lia.
Qed.

Lemma u32_crc32 (data : bytes) : u32 (crc32 data).
Proof.
  unfold crc32. apply u32_lxor; [| unfold u32; lia].
  assert (H : u32 0xFFFFFFFF) by (unfold u32; lia).
  revert H. generalize 0xFFFFFFFF%Z as c.
  induction data as [| b data IH]; intros c Hc; [exact Hc |].
  cbn [fold_left]. by apply IH, u32_crc_byte.
Qed.

Lemma land_mask32 (c : Z) : u32 c -> Z.land c 0xFFFFFFFF = c.
Proof.
  unfold u32. intros Hc. change 0xFFFFFFFF%Z with (Z.ones 32).
  rewrite Z.land_ones by lia. apply Z.mod_small. exact Hc.
Qed.

(** ** The identifier *)

(** C4. [appid] is the CRC-32 of the UTF-8 bytes of the name followed by the
    path, masked to 32 bits and or-ed with [0x80000000]; the bytes of the
    concatenation are the bytes of the name followed by the bytes of the
    path, and the mask changes nothing.  The result lies between [2^31] and
    [2^32], so bit 31 is set.  Equal arguments give equal results, and a
    result exists whenever no argument holds a surrogate code point. *)
Theorem C4_appid (name exe : str) :
  appid name exe
  = (bs ← encode (name ++ exe);
     Ok (Z.lor 0x80000000 (Z.land (crc32 bs) 0xFFFFFFFF))) /\
  (forall nb eb,
     encode name = Ok nb -> encode exe = Ok eb ->
     encode (name ++ exe) = Ok (nb ++ eb) /\
     appid name exe
     = Ok (Z.lor 0x80000000 (Z.land (crc32 (nb ++ eb)) 0xFFFFFFFF)) /\
     Z.land (crc32 (nb ++ eb)) 0xFFFFFFFF = crc32 (nb ++ eb)) /\
  (forall v, appid name exe = Ok v ->
             Z.testbit v 31 = true /\ (2 ^ 31 <= v < 2 ^ 32)%Z) /\
  (Forall scalar_value (name ++ exe) -> exists v, appid name exe = Ok v) /\
  (forall name' exe',
     name' = name -> exe' = exe -> appid name' exe' = appid name exe).
Proof.
  split; [reflexivity |].
  split.
  { intros nb eb Hn He. pose proof (encode_app_Ok _ _ _ _ Hn He) as Hne.
    split; [exact Hne |]. unfold appid. rewrite Hne.
    split; [reflexivity | apply land_mask32, u32_crc32]. }
  split.
  { intros v. unfold appid.
    destruct (encode (name ++ exe)) as [bs |]; cbn; [| discriminate].
    intros [= <-]. rewrite (land_mask32 _ (u32_crc32 bs)).
    assert (Hbit : Z.testbit (Z.lor 0x80000000 (crc32 bs)) 31 = true)
      by (rewrite Z.lor_spec; reflexivity).
    split; [exact Hbit |].
    assert (Hu : u32 (Z.lor 0x80000000 (crc32 bs))).
    { apply u32_lor; [unfold u32; lia | apply u32_crc32]. }
    unfold u32 in Hu. split; [| lia].
    apply Z.testbit_true in Hbit; [| lia].
    change (2 ^ 31)%Z with 2147483648%Z in *.
    Z.div_mod_to_equations. lia. }
  split.
  { intros Hs. destruct (encode_total _ Hs) as [bs Hbs].
    unfold appid. rewrite Hbs. eauto. }
  intros name' exe' -> ->. reflexivity.
Qed.

Lemma C4_appid_witness :
  appid APPNAME (slit "/home/u/run.sh") = Ok 3694483457%Z /\
  Z.testbit 3694483457 31 = true.
Proof.
  destruct (C4_appid APPNAME (slit "/home/u/run.sh")) as (_ & _ & Hbit & _).
  assert (H : appid APPNAME (slit "/home/u/run.sh") = Ok 3694483457%Z)
    by (vm_compute; reflexivity).
  exact (conj H (proj1 (Hbit _ H))).
Defined.

(** ** The record *)

Lemma make_entry_layout (config_dir : str) (index id : Z)
    (appname exe startdir : str) (id_b name_b exe_b dir_b cfg_b : bytes) :
  struct_pack_I id = Ok id_b ->
  encode appname = Ok name_b ->
  encode exe = Ok exe_b ->
  encode startdir = Ok dir_b ->
  encode config_dir = Ok cfg_b ->
  make_entry config_dir index id appname exe startdir
  = Ok (record_layout (decimal index) id_b name_b exe_b dir_b
          (cfg_b ++ lit "/grid/" ++ decimal id ++ lit "_icon.ico")).
Proof.
  intros Hid Hn He Hd Hc. unfold make_entry.
  rewrite !encode_str_of_int, Hid, Hn, He, Hd, Hc. cbn [mbind result_bind].
  f_equal. unfold record_layout. rewrite <- !app_assoc. reflexivity.
Qed.

Lemma encode_icon_path (prefix : str) (id : Z) (icon_b : bytes) :
  encode (icon_path prefix id) = Ok icon_b <->
  exists cfg_b,
    encode prefix = Ok cfg_b /\
    icon_b = cfg_b ++ lit "/grid/" ++ decimal id ++ lit "_icon.ico".
Proof.
  unfold icon_path.
  assert (Htail : encode (slit "/grid/" ++ str_of_int id ++ slit "_icon.ico")
                  = Ok (lit "/grid/" ++ decimal id ++ lit "_icon.ico")).
  { apply (encode_app_Ok (slit "/grid/")); [reflexivity |].
    apply encode_app_Ok; [apply encode_str_of_int | reflexivity]. }
  split.
  - intros (cfg_b & tail & Hc & Ht & ->)%encode_app_inv.
    rewrite Htail in Ht. injection Ht as <-. by exists cfg_b.
  - intros (cfg_b & Hc & ->). by apply encode_app_Ok.
Qed.



(** ** The pattern: one attempt *)

Lemma is_digit_not_x00 (b : byte) : is_digit b = true -> b <> x00.
Proof. intros H ->. discriminate. Qed.

Lemma span_digits_spec (l : bytes) :
  l = (span_digits l).1 ++ (span_digits l).2 /\
  Forall (fun b => is_digit b = true) (span_digits l).1 /\
  (forall b t, (span_digits l).2 = b :: t -> is_digit b = false).
Proof.
  induction l as [| b l (IH1 & IH2 & IH3)]; cbn [span_digits].
  - repeat split; [constructor | discriminate].
  - destruct (is_digit b) eqn:Hb.
    + destruct (span_digits l) as [ds rest]. cbn [fst snd] in *.
      split; [by rewrite IH1 at 1 |]. split; [by constructor | exact IH3].
    + cbn [fst snd]. split; [reflexivity |]. split; [constructor |].
      intros b' t [= <- _]. exact Hb.
Qed.

Lemma span_digits_app (ds rest : bytes) :
  Forall (fun b => is_digit b = true) ds ->
  (forall b t, rest = b :: t -> is_digit b = false) ->
  span_digits (ds ++ rest) = (ds, rest).
Proof.
  intros Hds Hrest. induction Hds as [| d ds Hd _ IH]; cbn [app].
  - destruct rest as [| b t]; [reflexivity |].
    cbn [span_digits]. by rewrite (Hrest b t eq_refl).
  - cbn [span_digits]. rewrite Hd, IH. reflexivity.
Qed.

(** An attempt succeeds exactly on a zero byte, one or more digits and a
    zero byte; the group is the digits. *)
Lemma match_at_spec (l ds rest : bytes) :
  match_at l = Some (ds, rest) <->
  l = x00 :: ds ++ x00 :: rest /\ ds <> [] /\
  Forall (fun b => is_digit b = true) ds.
Proof.
  split.
  - destruct l as [| b t]; [discriminate |]. cbn [match_at].
    destruct (decide (b = x00)) as [-> |]; [| discriminate].
    destruct (span_digits_spec t) as (Heq & Hds & _).
    destruct (span_digits t) as [[| d ds'] [| z rest']]; try discriminate.
    destruct (decide (z = x00)) as [-> |]; [| discriminate].
    intros [= <- <-]. cbn [fst snd] in *.
    split; [by rewrite Heq at 1 |]. split; [discriminate | exact Hds].
  - intros (-> & Hne & Hds). cbn [match_at].
    destruct (decide (x00 = x00)) as [_ |]; [| congruence].
    rewrite span_digits_app; [| exact Hds | by intros b t [= <- _]].
    destruct ds as [| d ds]; [congruence |].
    destruct (decide (x00 = x00)) as [_ |]; [reflexivity | congruence].
Qed.

Lemma match_at_length (l ds rest : bytes) :
  match_at l = Some (ds, rest) -> length rest + 3 <= length l.
Proof.
  intros (-> & Hne & _)%match_at_spec.
  destruct ds; [congruence |]. cbn. rewrite length_app. cbn. lia.
Qed.

Lemma match_at_digit (d : byte) (l : bytes) :
  is_digit d = true -> match_at (d :: l) = None.
Proof.
  intros Hd. cbn [match_at].
  destruct (decide (d = x00)) as [-> |]; [discriminate | reflexivity].
Qed.

(** ** The pattern: the scan *)

Lemma findall_fuel_enough (n : nat) :
  forall (m : nat) (l : bytes),
    length l <= n -> length l <= m -> findall_fuel n l = findall_fuel m l.
Proof.
  induction n as [| n IH]; intros m l Hn Hm.
  - destruct l; [| cbn in Hn; lia]. by destruct m.
  - destruct m as [| m]; [destruct l; [reflexivity | cbn in Hm; lia] |].
    cbn [findall_fuel]. destruct l as [| b t]; [reflexivity |].
    cbn [length] in Hn, Hm.
    destruct (match_at (b :: t)) as [[ds rest] |] eqn:Hmatch.
    + apply match_at_length in Hmatch. cbn [length] in Hmatch.
      f_equal. apply IH; lia.
    + apply IH; lia.
Qed.

Lemma findall_nil : findall [] = [].
Proof. reflexivity. Qed.

Lemma findall_cons (b : byte) (t : bytes) :
  findall (b :: t)
  = match match_at (b :: t) with
    | Some (ds, rest) => ds :: findall rest
    | None => findall t
    end.
Proof.
  unfold findall. cbn [length findall_fuel].
  destruct (match_at (b :: t)) as [[ds rest] |] eqn:Hmatch.
  - apply match_at_length in Hmatch. cbn [length] in Hmatch.
    f_equal. apply findall_fuel_enough; lia.
  - reflexivity.
Qed.

(** ** The matches found and the occurrences of the pattern *)

Lemma occurrences_digits (ds l : bytes) :
  Forall (fun b => is_digit b = true) ds ->
  occurrences (ds ++ l) = occurrences l.
Proof.
  induction 1 as [| d ds Hd _ IH]; [reflexivity |].
  cbn [app occurrences]. by rewrite (match_at_digit d _ Hd).
Qed.

Lemma occurrences_cons (b : byte) (t : bytes) :
  occurrences (b :: t)
  = match match_at (b :: t) with
    | Some (ds, _) => ds :: occurrences t
    | None => occurrences t
    end.
Proof. reflexivity. Qed.

(** After a match, the occurrences that remain are the one that may start
    at the closing zero byte and those behind the match. *)
Lemma occurrences_match (l ds rest : bytes) :
  match_at l = Some (ds, rest) ->
  occurrences l = ds :: occurrences (x00 :: rest).
Proof.
  intros Hm. pose proof Hm as (-> & _ & Hds)%match_at_spec.
  etrans; [apply occurrences_cons |]. rewrite Hm. f_equal.
  by apply occurrences_digits.
Qed.

Lemma bytes_length_ind (P : bytes -> Prop) :
  (forall l, (forall l', length l' < length l -> P l') -> P l) ->
  forall l, P l.
Proof.
  intros Hstep l. remember (length l) as n eqn:Hn.
  revert l Hn. induction n as [n IH] using lt_wf_ind.
  intros l ->. apply Hstep. intros l' Hl'. by apply (IH (length l')).
Qed.

Lemma findall_sublist (l : bytes) : findall l `sublist_of` occurrences l.
Proof.
  induction l as [l IH] using bytes_length_ind.
  destruct l as [| b t]; [constructor |].
  rewrite findall_cons.
  destruct (match_at (b :: t)) as [[ds rest] |] eqn:Hm.
  - rewrite (occurrences_match _ _ _ Hm). apply sublist_skip.
    apply match_at_length in Hm.
    cbn [occurrences].
    destruct (match_at (x00 :: rest)) as [[ds' rest'] |].
    + apply sublist_cons, IH. lia.
    + apply IH. lia.
  - cbn [occurrences]. rewrite Hm. apply IH. cbn. lia.
Qed.

Lemma findall_nil_iff (l : bytes) : findall l = [] <-> occurrences l = [].
Proof.
  split.
  - induction l as [| b t IH]; [reflexivity |].
    rewrite findall_cons. cbn [occurrences].
    destruct (match_at (b :: t)) as [[ds rest] |]; [discriminate | exact IH].
  - intros H. pose proof (findall_sublist l) as Hs. rewrite H in Hs.
    by apply sublist_nil_r in Hs.
Qed.



Lemma get_latest_index_next (data : bytes) :
  (get_latest_index data + 1)%Z
  = match last (findall data) with
    | Some ds => (int_of_digits ds + 1)%Z
    | None => 0%Z
    end.
Proof. unfold get_latest_index. by destruct (last (findall data)). Qed.

(** ** A byte that no match can cross *)

Lemma span_digits_barrier (a b : bytes) (c : byte) :
  barrier c ->
  exists ds r',
    span_digits (a ++ [c]) = (ds, r' ++ [c]) /\
    span_digits (a ++ c :: b) = (ds, r' ++ c :: b).
Proof.
  intros [_ Hc]. induction a as [| x a (ds & r' & IH1 & IH2)]; cbn [app].
  - exists [], []. cbn [span_digits]. by rewrite Hc.
  - cbn [span_digits]. destruct (is_digit x).
    + rewrite IH1, IH2. by exists (x :: ds), r'.
    + by exists [], (x :: a).
Qed.

Lemma match_at_barrier (a b : bytes) (c : byte) :
  barrier c ->
  match match_at (a ++ [c]) with
  | Some (ds, r1) =>
      exists r', r1 = r' ++ [c] /\
                 match_at (a ++ c :: b) = Some (ds, r' ++ c :: b)
  | None => match_at (a ++ c :: b) = None
  end.
Proof.
  intros Hc. destruct a as [| x a]; cbn [app match_at].
  - destruct Hc as [Hc _]. by destruct (decide (c = x00)).
  - destruct (decide (x = x00)) as [_ |]; [| reflexivity].
    destruct (span_digits_barrier a b c Hc) as (ds & r' & -> & ->).
    destruct ds as [| d ds]; [reflexivity |].
    destruct r' as [| z r']; cbn [app].
    + destruct Hc as [Hc _]. by destruct (decide (c = x00)).
    + destruct (decide (z = x00)); [by exists r' | reflexivity].
Qed.

Lemma findall_barrier (a b : bytes) (c : byte) :
  barrier c -> findall (a ++ c :: b) = findall (a ++ [c]) ++ findall b.
Proof.
  intros Hc. induction a as [a IH] using bytes_length_ind.
  pose proof (match_at_barrier a b c Hc) as Hm.
  destruct a as [| x a]; cbn [app] in *.
  - rewrite !findall_cons.
    destruct (match_at [c]) as [[ds r1] |] eqn:Hm1;
      [apply match_at_length in Hm1; cbn in Hm1; lia |].
    by rewrite Hm.
  - rewrite (findall_cons x (a ++ c :: b)), (findall_cons x (a ++ [c])).
    destruct (match_at (x :: a ++ [c])) as [[ds r1] |] eqn:Hm1.
    + destruct Hm as (r' & -> & ->).
      apply match_at_length in Hm1. cbn [length] in Hm1.
      rewrite !length_app in Hm1. cbn [length] in Hm1.
      rewrite IH by (cbn; lia). reflexivity.
    + rewrite Hm. apply IH. cbn. lia.
Qed.

Lemma occurrences_barrier (a b : bytes) (c : byte) :
  barrier c ->
  occurrences (a ++ c :: b) = occurrences (a ++ [c]) ++ occurrences b.
Proof.
  intros Hc. induction a as [| x a IH].
  - cbn [app]. rewrite !occurrences_cons.
    pose proof (match_at_barrier [] b c Hc) as Hm. cbn [app] in Hm.
    destruct (match_at [c]) as [[ds r1] |] eqn:Hm1;
      [apply match_at_length in Hm1; cbn in Hm1; lia |].
    by rewrite Hm.
  - pose proof (match_at_barrier (x :: a) b c Hc) as Hm. cbn [app] in *.
    rewrite (occurrences_cons x (a ++ c :: b)),
            (occurrences_cons x (a ++ [c])).
    destruct (match_at (x :: a ++ [c])) as [[ds r1] |].
    + destruct Hm as (r' & _ & ->). by rewrite IH.
    + by rewrite Hm, IH.
Qed.

Lemma barrier_x08 : barrier x08.
Proof. split; [discriminate | reflexivity]. Qed.

(** The header holds no match, and none starts in it. *)
Lemma findall_header (rest : bytes) :
  (forall d t, rest = d :: t -> is_digit d = false) ->
  findall (header ++ rest) = findall rest.
Proof.
  intros Hrest.
  change (header ++ rest)
    with ((x00 :: lit "shortcut") ++ "s"%byte :: (x00 :: rest)).
  rewrite findall_barrier by (split; [discriminate | reflexivity]).
  change (findall ((x00 :: lit "shortcut") ++ ["s"%byte])) with (@nil bytes).
  cbn [app]. rewrite findall_cons.
  replace (match_at (x00 :: rest)) with (@None (bytes * bytes));
    [reflexivity |].
  cbn [match_at]. destruct (decide (x00 = x00)); [| congruence].
  destruct rest as [| d t]; [reflexivity |].
  cbn [span_digits]. by rewrite (Hrest d t eq_refl).
Qed.

(** ** Databases of plain records *)

Lemma make_entry_shape (config_dir : str) (i id : Z)
    (appname exe startdir : str) (r : bytes) :
  make_entry config_dir i id appname exe startdir = Ok r ->
  exists r0, r = x00 :: decimal i ++ x00 :: r0 ++ [x08].
Proof.
  intros Hr.
  assert (Hok : exists id_b name_b exe_b dir_b cfg_b,
             struct_pack_I id = Ok id_b /\ encode appname = Ok name_b /\
             encode exe = Ok exe_b /\ encode startdir = Ok dir_b /\
             encode config_dir = Ok cfg_b).
  { unfold make_entry in Hr. rewrite !encode_str_of_int in Hr.
    cbn [mbind result_bind] in Hr.
    destruct (struct_pack_I id) as [id_b |]; [| discriminate].
    destruct (encode appname) as [name_b |]; [| discriminate].
    destruct (encode exe) as [exe_b |]; [| discriminate].
    destruct (encode startdir) as [dir_b |]; [| discriminate].
    destruct (encode config_dir) as [cfg_b |]; [| discriminate].
    by exists id_b, name_b, exe_b, dir_b, cfg_b. }
  destruct Hok as (id_b & name_b & exe_b & dir_b & cfg_b
                   & Hid & Hn & He & Hd & Hc).
  rewrite (make_entry_layout _ _ _ _ _ _ _ _ _ _ _ Hid Hn He Hd Hc) in Hr.
  injection Hr as <-.
  exists ([x02] ++ lit "appid" ++ [x00] ++ id_b
          ++ [x01] ++ lit "appname" ++ [x00] ++ name_b ++ [x00]
          ++ [x01] ++ lit "exe" ++ [x00] ++ exe_b ++ [x00]
          ++ [x01] ++ lit "StartDir" ++ [x00] ++ dir_b ++ [x00]
          ++ [x01] ++ lit "icon" ++ [x00]
          ++ (cfg_b ++ lit "/grid/" ++ decimal id ++ lit "_icon.ico")
          ++ [x00]).
  unfold record_layout.
  repeat first [progress cbn [app] | rewrite <- app_assoc]. reflexivity.
Qed.

Lemma record_marker (i : Z) (r : bytes) :
  (0 <= i)%Z -> record_of i r ->
  exists r0 rest,
    r = r0 ++ [x08] /\ match_at r = Some (decimal i, rest) /\
    exists t, r = x00 :: t.
Proof.
  intros Hi (cfg & id & n & e & s & Hr).
  destruct (make_entry_shape _ _ _ _ _ _ _ Hr) as (r0 & ->).
  destruct (decimal_nonneg i Hi) as (Hdig & _ & d & ds & Hd & _).
  exists (x00 :: decimal i ++ x00 :: r0), (r0 ++ [x08]).
  split; [cbn [app]; by rewrite <- app_assoc |].
  split; [| eauto].
  apply match_at_spec. split; [reflexivity |].
  split; [by rewrite Hd | exact Hdig].
Qed.

Lemma findall_plain_record (ir : Z * bytes) :
  plain_record ir -> findall ir.2 = [decimal ir.1].
Proof.
  destruct ir as [i r]. intros (Hi & Hrec & Hocc). cbn [fst snd] in *.
  destruct (record_marker i r Hi Hrec) as (r0 & rest & _ & Hm & t & ->).
  rewrite findall_cons, Hm. f_equal.
  rewrite (occurrences_match _ _ _ Hm) in Hocc. cbn [length] in Hocc.
  assert (Hnil : occurrences (x00 :: rest) = [])
    by (destruct (occurrences (x00 :: rest)); [done | cbn in Hocc; lia]).
  rewrite occurrences_cons in Hnil.
  destruct (match_at (x00 :: rest)) as [[ds' rest'] |]; [discriminate |].
  by apply findall_nil_iff.
Qed.

Lemma findall_plain_records (recs : list (Z * bytes)) (tail : bytes) :
  Forall plain_record recs ->
  findall (concat (map snd recs) ++ tail)
  = map (fun ir => decimal ir.1) recs ++ findall tail.
Proof.
  induction 1 as [| ir recs Hir _ IH]; [reflexivity |].
  cbn [map concat]. rewrite <- app_assoc.
  pose proof (findall_plain_record ir Hir) as Hf.
  destruct Hir as (Hi & Hrec & _).
  destruct (record_marker _ _ Hi Hrec) as (r0 & _ & Hr & _).
  rewrite Hr in *. rewrite <- app_assoc. cbn [app].
  rewrite findall_barrier by apply barrier_x08.
  rewrite Hf, IH. reflexivity.
Qed.

(** In a database of plain records the matches are the index markers, in
    the order of the records, and the next index is one more than the index
    of the last record. *)
Lemma plain_database (recs : list (Z * bytes)) :
  Forall plain_record recs ->
  findall (database (map snd recs)) = map (fun ir => decimal ir.1) recs /\
  (get_latest_index (database (map snd recs)) + 1)%Z
  = match last recs with
    | Some ir => (ir.1 + 1)%Z
    | None => 0%Z
    end.
Proof.
  intros Hrecs.
  assert (Hf : findall (database (map snd recs))
               = map (fun ir => decimal ir.1) recs).
  { unfold database. rewrite findall_header.
    - rewrite (findall_plain_records recs [x08; x08] Hrecs).
      change (findall [x08; x08]) with (@nil bytes). by rewrite app_nil_r.
    - destruct Hrecs as [| ir recs (Hi & Hrec & _) _].
      + by intros d t [= <- _].
      + destruct (record_marker _ _ Hi Hrec) as (_ & _ & _ & _ & t' & Ht).
        cbn [map concat]. rewrite Ht. by intros d t [= <- _]. }
  split; [exact Hf |].
  rewrite get_latest_index_next, Hf.
  change (map (fun ir : Z * bytes => decimal ir.1) recs)
    with ((fun ir : Z * bytes => decimal ir.1) <$> recs).
  rewrite fmap_last.
  destruct (last recs) as [ir |] eqn:Hlast; [| reflexivity].
  cbn [fmap option_fmap option_map].
  apply last_Some in Hlast as [recs' ->].
  apply Forall_app in Hrecs as [_ Hir].
  apply Forall_cons in Hir as [(Hi & _) _].
  by rewrite (proj1 (proj2 (decimal_nonneg _ Hi))).
Qed.


(** ** The next index *)



Lemma sample_record_plain (i : Z) :
  (0 <= i)%Z ->
  length (occurrences (sample_record i)) = 1 ->
  sample_record i <> [] ->
  plain_record (i, sample_record i).
Proof.
  intros Hi Hocc Hne. split; [exact Hi |]. split; [| exact Hocc].
  exists sample_config_dir, 3694483457%Z, APPNAME, (slit "/home/u/run.sh"),
         (slit "/home/u/data").
  unfold sample_record in *.
  destruct (make_entry _ _ _ _ _ _); [reflexivity | congruence].
Qed.


(** ** Inserting and scanning again *)

Lemma new_data_database (records : list bytes) (r : bytes) :
  new_data (database records) r = database (records ++ [r]).
Proof.
  unfold database. rewrite app_assoc, new_data_app, concat_app.
  cbn [concat]. rewrite app_nil_r, <- !app_assoc. reflexivity.
Qed.

(** After a plain record has been inserted into a database of plain
    records, the next index is the index of that record plus one. *)
Lemma next_index_after_insert_plain (recs : list (Z * bytes)) (i : Z)
    (r : bytes) :
  Forall plain_record recs -> plain_record (i, r) ->
  (get_latest_index (new_data (database (map snd recs)) r) + 1)%Z
  = (i + 1)%Z.
Proof.
  intros Hrecs Hr. rewrite new_data_database.
  change (map snd recs ++ [r]) with (map snd recs ++ map snd [(i, r)]).
  rewrite <- map_app.
  destruct (plain_database (recs ++ [(i, r)])) as [_ Hnext].
  { apply Forall_app. split; [exact Hrecs |]. by constructor. }
  rewrite Hnext, last_snoc. reflexivity.
Qed.

(** C6, at a failing input. The launcher of [user23842] gets the
    identifier [0xF5BA0033]; its four bytes [33 00 BA F5] follow the zero
    byte that ends the key [appid], so the record for the index 0 holds the
    pattern a second time, with the digit ['3'].  After the record has been
    inserted into the skeleton the scan finds the matches ["0"] and ["3"],
    and the next index is 4, not [0 + 1]. *)
Theorem C6_next_index_after_insert_fails :
  exists R,
    appid APPNAME pollymc_exe = Ok 0xF5BA0033%Z /\
    struct_pack_I 0xF5BA0033 = Ok [x33; x00; xba; xf5] /\
    make_entry pollymc_config_dir 0 0xF5BA0033 APPNAME pollymc_exe
      pollymc_dir = Ok R /\
    endswith skeleton [x08; x08] = true /\
    findall (new_data skeleton R) = [lit "0"; lit "3"] /\
    (get_latest_index (new_data skeleton R) + 1)%Z = 4%Z /\
    (get_latest_index (new_data skeleton R) + 1)%Z <> (0 + 1)%Z.
Proof.
  destruct (make_entry pollymc_config_dir 0 0xF5BA0033 APPNAME pollymc_exe
              pollymc_dir) as [R |] eqn:HR; [| vm_compute in HR; discriminate].
  exists R. vm_compute in HR. injection HR as <-.
  vm_compute. repeat split. discriminate.
Qed.

(** C7. There is a terminated database of two records, built by
    [make_entry] for the indices 0 and 1, in which the value of [StartDir]
    of the second record holds a zero byte, the digit ['7'] and a zero byte.
    The scan finds the two index markers and then these digits; they are
    its last match, so the next index is 8 and not one plus the highest
    index, 2. *)
Theorem C7_field_value_misread :
  exists (r0 r1 value ds : bytes),
    record_of 0 r0 /\
    make_entry sample_config_dir 1 3694483457 APPNAME
      (slit "/home/u/run.sh") odd_dir = Ok r1 /\
    encode odd_dir = Ok value /\
    (exists pre post, value = pre ++ [x00] ++ ds ++ [x00] ++ post) /\
    ds <> [] /\ Forall (fun b => is_digit b = true) ds /\
    endswith (database [r0; r1]) [x08; x08] = true /\
    findall (database [r0; r1]) = [decimal 0; decimal 1; ds] /\
    last (findall (database [r0; r1])) = Some ds /\
    (get_latest_index (database [r0; r1]) + 1)%Z
    = (int_of_digits ds + 1)%Z /\
    (get_latest_index (database [r0; r1]) + 1)%Z = 8%Z /\
    (get_latest_index (database [r0; r1]) + 1)%Z <> (1 + Z.max 0 1)%Z.
Proof.
  destruct (make_entry sample_config_dir 1 3694483457 APPNAME
              (slit "/home/u/run.sh") odd_dir) as [r1 |] eqn:Hr1;
    [| vm_compute in Hr1; discriminate].
  exists (sample_record 0), r1, (lit "/data" ++ [x00] ++ lit "7" ++ [x00]
                                 ++ lit "x"), (lit "7").
  split; [apply (sample_record_plain 0); [lia | reflexivity | discriminate] |].
  split; [reflexivity |].
  split; [reflexivity |].
  split; [by exists (lit "/data"), (lit "x") |].
  split; [discriminate |].
  split; [by repeat constructor |].
  vm_compute in Hr1. injection Hr1 as <-.
  vm_compute. repeat split. discriminate.
Qed.

(** ** Running the script twice *)

(** A run on a terminated file with arguments that can be encoded puts one
    record before the terminator and leaves the rest of the file as it
    was. *)
Lemma main_appends_record (config_dir EXE STARTDIR : str) (w : world)
    (B0 R : bytes) (id : Z) :
  files w !! shortcuts_file config_dir = Some (B0 ++ [x08; x08]) ->
  appid APPNAME EXE = Ok id ->
  make_entry config_dir (get_latest_index (B0 ++ [x08; x08]) + 1) id
    APPNAME EXE STARTDIR = Ok R ->
  (main config_dir EXE STARTDIR w).2 = Continues /\
  files (main config_dir EXE STARTDIR w).1
  = <[shortcuts_file config_dir := B0 ++ R ++ [x08; x08]]> (files w).
Proof.
  intros Hfile Hid HR. rewrite (main_present _ _ _ _ _ Hfile).
  unfold after_open. rewrite Hid, HR.
  rewrite insert_entry_accepts by (apply endswith_true; eauto).
  rewrite new_data_app. split; reflexivity.
Qed.

(** C10, at a failing input. Two runs for the launcher of [user23842],
    starting without a file: both add a record with the identifier
    [0xF5BA0033], the first with the index 0, the second with the index 4,
    because the second run reads the bytes of the identifier in the first
    record as an index marker. *)
Theorem C10_second_run_index :
  let w0 := World ∅ ∅ [] in
  let run1 := main pollymc_config_dir pollymc_exe pollymc_dir w0 in
  let run2 := main pollymc_config_dir pollymc_exe pollymc_dir run1.1 in
  exists R0 R4,
    make_entry pollymc_config_dir 0 0xF5BA0033 APPNAME pollymc_exe
      pollymc_dir = Ok R0 /\
    make_entry pollymc_config_dir 4 0xF5BA0033 APPNAME pollymc_exe
      pollymc_dir = Ok R4 /\
    run1.2 = Continues /\ run2.2 = Continues /\
    last (trace run1.1) = Some (Print (MsgAdded 0 0xF5BA0033)) /\
    last (trace run2.1) = Some (Print (MsgAdded 4 0xF5BA0033)) /\
    files run1.1 !! shortcuts_file pollymc_config_dir
    = Some (database [R0]) /\
    files run2.1 !! shortcuts_file pollymc_config_dir
    = Some (database [R0; R4]) /\
    (4 <> 0 + 1)%Z.
Proof.
  intros w0 run1 run2.
  destruct (make_entry pollymc_config_dir 0 0xF5BA0033 APPNAME pollymc_exe
              pollymc_dir) as [R0 |] eqn:H0; [| vm_compute in H0; discriminate].
  destruct (make_entry pollymc_config_dir 4 0xF5BA0033 APPNAME pollymc_exe
              pollymc_dir) as [R4 |] eqn:H4; [| vm_compute in H4; discriminate].
  exists R0, R4. vm_compute in H0, H4. injection H0 as <-. injection H4 as <-.
  subst run2 run1 w0. vm_compute. repeat split. discriminate.
Qed.

(** ** Paths *)

Lemma str_startswith_sep (b : str) :
  str_startswith b (slit "/") = true <-> exists b', b = 47%N :: b'.
Proof.
  unfold str_startswith. rewrite bool_decide_eq_true.
  change (slit "/") with [47%N]. cbn [length].
  destruct b as [| c b']; cbn [take].
  - split; [discriminate | by intros [? ?]].
  - rewrite take_0. split; [intros [= ->]; eauto | by intros [? [= -> _]]].
Qed.

Lemma str_endswith_sep (path : str) :
  str_endswith path (slit "/") = true <-> exists p', path = p' ++ [47%N].
Proof.
  unfold str_endswith. rewrite bool_decide_eq_true.
  change (slit "/") with [47%N]. split.
  - intros H. exists (take (length path - 1) path).
    cbn [length] in H.
    rewrite <- (take_drop (length path - 1) path) at 1. by rewrite H.
  - intros [p' ->]. rewrite length_app. cbn [length].
    replace (length p' + 1 - 1) with (length p') by lia.
    by rewrite drop_app_length.
Qed.

(** A component that does not start with ["/"] ends the joined path. *)
Lemma join_step_keeps_name (path name : str) :
  str_startswith name (slit "/") = false ->
  exists front, join_step path name = front ++ name.
Proof.
  intros Hname. unfold join_step. rewrite Hname.
  destruct (bool_decide (path = []) || str_endswith path (slit "/")).
  - by exists path.
  - exists (path ++ slit "/"). by rewrite <- app_assoc.
Qed.

(** After a path that ends with a character other than ["/"], a component
    that does not start with ["/"] is appended behind a ["/"]. *)
Lemma join_step_sep (front : str) (c : N) (b : str) :
  c <> 47%N ->
  str_startswith b (slit "/") = false ->
  join_step (front ++ [c]) b = (front ++ [c]) ++ slit "/" ++ b.
Proof.
  intros Hc Hb. unfold join_step. rewrite Hb.
  rewrite bool_decide_eq_false_2 by (by destruct front).
  destruct (str_endswith (front ++ [c]) (slit "/")) eqn:Hend;
    [| reflexivity].
  apply str_endswith_sep in Hend as [p' Hp].
  apply app_inj_tail in Hp as [_ ->]. congruence.
Qed.

Lemma str_of_int_head (z : Z) :
  exists c cs, str_of_int z = c :: cs /\ c <> 47%N.
Proof.
  unfold str_of_int.
  assert (HN : forall n, exists c cs, str_of_N n = c :: cs /\ c <> 47%N).
  { intros n. destruct (str_of_N_spec n) as (Hdig & _ & d & ds & Heq & _).
    exists d, ds. split; [exact Heq |].
    rewrite Heq in Hdig. apply Forall_cons in Hdig as [Hd _].
    unfold digit_char in Hd. lia. }
  destruct z as [| p | p]; [apply HN | apply HN |].
  exists 45%N, (str_of_N (N.pos p)). split; [reflexivity | lia].
Qed.

Lemma config_dir_of_ends (userdata user_id : str) :
  exists front, config_dir_of userdata user_id
                = front ++ slit "confi" ++ [103%N].
Proof.
  unfold config_dir_of, path_join. cbn [fold_left].
  destruct (join_step_keeps_name (join_step userdata user_id) (slit "config"))
    as [front Hfront]; [reflexivity |].
  exists front. exact Hfront.
Qed.

Lemma grid_dir_concat (userdata user_id : str) :
  path_join userdata [user_id; slit "config"; slit "grid"]
  = config_dir_of userdata user_id ++ slit "/grid".
Proof.
  destruct (config_dir_of_ends userdata user_id) as [front Hcd].
  unfold path_join. cbn [fold_left].
  change (join_step (join_step userdata user_id) (slit "config"))
    with (config_dir_of userdata user_id).
  rewrite Hcd, app_assoc. by rewrite join_step_sep.
Qed.

Lemma image_path_concat (userdata user_id : str) (id : Z)
    (item : str * str) :
  image_path (path_join userdata [user_id; slit "config"; slit "grid"])
    id item
  = config_dir_of userdata user_id ++ slit "/grid/" ++ str_of_int id
    ++ item.1 ++ image_ext item.2.
Proof.
  rewrite grid_dir_concat. unfold image_path, path_join. cbn [fold_left].
  destruct (str_of_int_head id) as (c & cs & Hid & Hc).
  change (slit "/grid") with (slit "/gri" ++ [100%N]).
  rewrite app_assoc, join_step_sep.
  - rewrite <- !app_assoc. reflexivity.
  - discriminate.
  - rewrite Hid. cbn [app].
    destruct (str_startswith (c :: cs ++ item.1 ++ image_ext item.2)
                (slit "/")) eqn:Hs; [| reflexivity].
    apply str_startswith_sep in Hs as [b' [= -> _]]. congruence.
Qed.

(** X1. Whatever [userdata] and [user_id] are, [config_dir] ends with
    [config], so the joined paths of the script are plain concatenations:
    [shortcuts_file] is [config_dir + "/shortcuts.vdf"], [grid_dir] is
    [config_dir + "/grid"], and the file of an image is [grid_dir + "/" +
    str(appid) + suffix + ext]. *)
Theorem X1_script_paths (userdata user_id : str) (id : Z) (item : str * str) :
  let config_dir := config_dir_of userdata user_id in
  let grid_dir :=
    path_join userdata [user_id; slit "config"; slit "grid"] in
  path_join config_dir [slit "shortcuts.vdf"] = shortcuts_file config_dir /\
  grid_dir = config_dir ++ slit "/grid" /\
  image_path grid_dir id item
  = config_dir ++ slit "/grid/" ++ str_of_int id ++ item.1
    ++ image_ext item.2.
Proof.
  intros config_dir grid_dir.
  split; [| split; [apply grid_dir_concat | apply image_path_concat]].
  destruct (config_dir_of_ends userdata user_id) as [front Hcd].
  fold config_dir in Hcd.
  unfold path_join, shortcuts_file. cbn [fold_left].
  rewrite Hcd, app_assoc. by rewrite join_step_sep.
Qed.

(** ** When [make_entry] succeeds *)

Lemma utf8_char_Ok_scalar (c : N) (bs : bytes) :
  utf8_char c = Ok bs -> scalar_value c.
Proof.
  unfold utf8_char, scalar_value.
  destruct (N.ltb_spec c 0x80); [lia |].
  destruct (N.ltb_spec c 0x800); [lia |].
  destruct (N.ltb_spec c 0x10000).
  - destruct (N.leb_spec 0xD800 c); destruct (N.leb_spec c 0xDFFF);
      cbn [andb]; try discriminate; lia.
  - destruct (N.ltb_spec c 0x110000); [lia | discriminate].
Qed.

Lemma utf8_char_Raise (c : N) (e : exn) :
  utf8_char c = Raise e -> e = UnicodeEncodeError.
Proof.
  unfold utf8_char.
  repeat match goal with
         | |- context [if ?b then _ else _] => destruct b
         end; congruence.
Qed.

Lemma encode_Ok_scalar (s : str) (bs : bytes) :
  encode s = Ok bs -> Forall scalar_value s.
Proof.
  revert bs. induction s as [| c s IH]; intros bs; [constructor |].
  cbn [encode].
  destruct (utf8_char c) as [cb |] eqn:Hc; cbn; [| discriminate].
  destruct (encode s) as [rest |]; cbn; [| discriminate].
  intros _. constructor; [by eapply utf8_char_Ok_scalar | by eapply IH].
Qed.

Lemma encode_Raise (s : str) (e : exn) :
  encode s = Raise e -> e = UnicodeEncodeError.
Proof.
  induction s as [| c s IH]; [discriminate |]. cbn [encode].
  destruct (utf8_char c) as [cb |] eqn:Hc; cbn.
  - destruct (encode s) as [rest |]; cbn; [discriminate |].
    intros [= <-]. by apply IH.
  - intros [= <-]. by eapply utf8_char_Raise.
Qed.

Lemma make_entry_inv (config_dir : str) (i id : Z)
    (appname exe startdir : str) (r : bytes) :
  make_entry config_dir i id appname exe startdir = Ok r ->
  exists id_b name_b exe_b dir_b cfg_b,
    struct_pack_I id = Ok id_b /\ encode appname = Ok name_b /\
    encode exe = Ok exe_b /\ encode startdir = Ok dir_b /\
    encode config_dir = Ok cfg_b /\
    r = record_layout (decimal i) id_b name_b exe_b dir_b
          (cfg_b ++ lit "/grid/" ++ decimal id ++ lit "_icon.ico").
Proof.
  intros Hr. pose proof Hr as Hr'.
  unfold make_entry in Hr. rewrite !encode_str_of_int in Hr.
  cbn [mbind result_bind] in Hr.
  destruct (struct_pack_I id) as [id_b |] eqn:Hid; [| discriminate].
  destruct (encode appname) as [name_b |] eqn:Hn; [| discriminate].
  destruct (encode exe) as [exe_b |] eqn:He; [| discriminate].
  destruct (encode startdir) as [dir_b |] eqn:Hd; [| discriminate].
  destruct (encode config_dir) as [cfg_b |] eqn:Hc; [| discriminate].
  exists id_b, name_b, exe_b, dir_b, cfg_b.
  rewrite (make_entry_layout _ _ _ _ _ _ _ _ _ _ _ Hid Hn He Hd Hc) in Hr'.
  injection Hr' as <-. repeat split.
Qed.


Lemma make_entry_total (config_dir : str) (index id : Z)
    (appname exe startdir : str) :
  (0 <= id < 2 ^ 32)%Z ->
  Forall scalar_value (appname ++ exe ++ startdir ++ config_dir) ->
  exists r, make_entry config_dir index id appname exe startdir = Ok r.
Proof.
  intros Hid (Hn & (He & (Hd & Hc)%Forall_app)%Forall_app)%Forall_app.
  destruct (struct_pack_I_spec id Hid) as (b0 & b1 & b2 & b3 & Hp & _).
  destruct (encode_total _ Hn) as [nb Hnb].
  destruct (encode_total _ He) as [eb Heb].
  destruct (encode_total _ Hd) as [db Hdb].
  destruct (encode_total _ Hc) as [cb Hcb].
  eexists. exact (make_entry_layout _ _ _ _ _ _ _ _ _ _ _ Hp Hnb Heb Hdb Hcb).
Qed.

Lemma make_entry_Ok_valid (config_dir : str) (index id : Z)
    (appname exe startdir : str) (r : bytes) :
  make_entry config_dir index id appname exe startdir = Ok r ->
  (0 <= id < 2 ^ 32)%Z /\
  Forall scalar_value (appname ++ exe ++ startdir ++ config_dir).
Proof.
  intros (id_b & nb & eb & db & cb & Hp & Hn & He & Hd & Hc & _)%make_entry_inv.
  split.
  - assert (Hdec : (0 <= id < 2 ^ 32)%Z \/ ~ (0 <= id < 2 ^ 32)%Z) by lia.
    destruct Hdec as [H | H]; [exact H |].
    rewrite (struct_pack_I_out_of_range id H) in Hp. discriminate.
  - rewrite !Forall_app.
    repeat split; eapply encode_Ok_scalar; eassumption.
Qed.

Lemma make_entry_raise_unicode (config_dir : str) (index id : Z)
    (appname exe startdir : str) (e : exn) :
  (0 <= id < 2 ^ 32)%Z ->
  make_entry config_dir index id appname exe startdir = Raise e ->
  e = UnicodeEncodeError.
Proof.
  intros Hid. unfold make_entry. rewrite !encode_str_of_int.
  destruct (struct_pack_I_spec id Hid) as (b0 & b1 & b2 & b3 & -> & _).
  cbn [mbind result_bind].
  destruct (encode appname) eqn:Hn; cbn;
    [| intros [= <-]; by eapply encode_Raise].
  destruct (encode exe) eqn:He; cbn;
    [| intros [= <-]; by eapply encode_Raise].
  destruct (encode startdir) eqn:Hd; cbn;
    [| intros [= <-]; by eapply encode_Raise].
  destruct (encode config_dir) eqn:Hc; cbn;
    [discriminate | intros [= <-]; by eapply encode_Raise].
Qed.


(** X3. The icon field of the record names the file that the artwork loop
    writes for the [_icon] image: the bytes between [01 "icon" 00] and the
    closing [00 08] are the UTF-8 encoding of that path. *)
Theorem X3_icon_field_is_image_path (userdata user_id : str) (index id : Z)
    (appname exe startdir url : str) (r : bytes) :
  (slit "_icon", url) ∈ STEAMGRIDDB_IMAGES ->
  make_entry (config_dir_of userdata user_id) index id appname exe startdir
  = Ok r ->
  exists front icon_b,
    encode (image_path
              (path_join userdata [user_id; slit "config"; slit "grid"])
              id (slit "_icon", url)) = Ok icon_b /\
    r = front ++ [x01] ++ lit "icon" ++ [x00] ++ icon_b ++ [x00; x08].
Proof.
  intros Hin (id_b & nb & eb & db & cb & _ & _ & _ & _ & Hc & ->)%make_entry_inv.
  assert (Hurl : image_ext url = slit ".ico").
  { unfold STEAMGRIDDB_IMAGES in Hin.
    repeat (apply elem_of_cons in Hin as [Heq | Hin];
            [first [injection Heq as Hs Hu;
                    by (vm_compute in Hs; discriminate Hs)
                   | injection Heq as ->; reflexivity] |]).
    by apply elem_of_nil in Hin. }
  rewrite image_path_concat. cbn [fst snd]. rewrite Hurl.
  exists ([x00] ++ decimal index ++ [x00]
          ++ [x02] ++ lit "appid" ++ [x00] ++ id_b
          ++ [x01] ++ lit "appname" ++ [x00] ++ nb ++ [x00]
          ++ [x01] ++ lit "exe" ++ [x00] ++ eb ++ [x00]
          ++ [x01] ++ lit "StartDir" ++ [x00] ++ db ++ [x00]),
         (cb ++ lit "/grid/" ++ decimal id ++ lit "_icon.ico").
  split.
  - apply encode_icon_path. by exists cb.
  - unfold record_layout.
    repeat first [progress cbn [app] | rewrite <- app_assoc]. reflexivity.
Qed.


Lemma X3_icon_field_is_image_path_witness :
  exists r front icon_b,
    make_entry (config_dir_of (slit "/u") (slit "1")) 0 7 APPNAME
      (slit "/e") (slit "/d") = Ok r /\
    encode (image_path
              (path_join (slit "/u") [slit "1"; slit "config"; slit "grid"])
              7 (slit "_icon",
                 slit "https://cdn2.steamgriddb.com/icon/add7a048049671970976f3e18f21ade3.ico"))
    = Ok icon_b /\
    r = front ++ [x01] ++ lit "icon" ++ [x00] ++ icon_b ++ [x00; x08].
Proof.
  destruct (make_entry (config_dir_of (slit "/u") (slit "1")) 0 7 APPNAME
              (slit "/e") (slit "/d")) as [r |] eqn:Hr;
    [| vm_compute in Hr; discriminate].
  assert (Hin : (slit "_icon",
                 slit "https://cdn2.steamgriddb.com/icon/add7a048049671970976f3e18f21ade3.ico")
                ∈ STEAMGRIDDB_IMAGES)
    by (unfold STEAMGRIDDB_IMAGES; do 4 apply list_elem_of_further;
        apply list_elem_of_here).
  destruct (X3_icon_field_is_image_path (slit "/u") (slit "1") 0 7 APPNAME
              (slit "/e") (slit "/d") _ r Hin Hr) as (front & icon_b & H1 & H2).
  exists r, front, icon_b. exact (conj eq_refl (conj H1 H2)).
Defined.

(** ** The index is never negative *)



(** ** Zero bytes and digits in UTF-8 *)

Lemma N_lor_byte (k y : N) : (k < 256 -> y < 256 -> N.lor k y < 256)%N.
Proof.
  intros Hk Hy.
  assert (Hlog : forall a, (a < 2 ^ 8 -> N.log2 a < 8)%N).
  { intros a Ha. destruct (N.eq_dec a 0%N) as [-> | H0]; [reflexivity |].
    apply N.log2_lt_pow2; lia. }
  destruct (N.eq_dec (N.lor k y) 0%N) as [Hz | Hne]; [rewrite Hz; lia |].
  change 256%N with (2 ^ 8)%N in *.
  apply N.log2_lt_pow2; [lia |]. rewrite N.log2_lor.
  pose proof (Hlog k Hk). pose proof (Hlog y Hy). lia.
Qed.

Lemma N_lor_high (k y : N) : N.testbit k 7 = true -> (128 <= N.lor k y)%N.
Proof.
  intros Hk.
  assert (Hbit : N.testbit (N.lor k y) 7 = true)
    by (rewrite N.lor_spec, Hk; reflexivity).
  apply N.testbit_true in Hbit. change (2 ^ 7)%N with 128%N in Hbit.
  destruct (N.lt_ge_cases (N.lor k y) 128) as [Hlt | Hge]; [| exact Hge].
  rewrite (N.div_small _ _ Hlt) in Hbit. discriminate.
Qed.

Lemma high_byte_lor (k y : N) :
  N.testbit k 7 = true -> (k < 256)%N -> (y < 256)%N ->
  high_byte (byte_of_N (N.lor k y)).
Proof.
  intros Hbit Hk Hy. unfold high_byte.
  rewrite to_N_byte_of_N by (by apply N_lor_byte).
  by apply N_lor_high.
Qed.

Lemma N_land_3F (y : N) : (N.land y 0x3F < 256)%N.
Proof.
  change 0x3F%N with (N.ones 6). rewrite N.land_ones.
  pose proof (N.mod_lt y (2 ^ 6) ltac:(discriminate)) as H.
  change (2 ^ 6)%N with 64%N in *.
  set (r := (y mod 64)%N) in *. lia.
Qed.

Lemma N_shiftr_lt (c k bound : N) :
  (c < 2 ^ k * bound)%N -> (N.shiftr c k < bound)%N.
Proof.
  intros H. rewrite N.shiftr_div_pow2.
  by apply N.Div0.div_lt_upper_bound.
Qed.

(** The bytes of a code point of 128 or more are all high bytes. *)
Lemma utf8_char_high (c : N) (cb : bytes) :
  (128 <= c)%N -> utf8_char c = Ok cb ->
  Forall high_byte cb /\ cb <> [].
Proof.
  intros Hc. unfold utf8_char.
  destruct (N.ltb_spec c 0x80); [lia |].
  assert (Hcont : forall y, high_byte (byte_of_N (N.lor 0x80 (N.land y 0x3F)))).
  { intros y. apply high_byte_lor; [reflexivity | lia | apply N_land_3F]. }
  destruct (N.ltb_spec c 0x800).
  { intros [= <-]. split; [| discriminate].
    repeat constructor; [| apply Hcont].
    apply high_byte_lor; [reflexivity | lia |].
    apply N.lt_trans with 32%N; [| lia]. apply N_shiftr_lt.
    change (2 ^ 6 * 32)%N with 0x800%N. assumption. }
  destruct (N.ltb_spec c 0x10000).
  { destruct ((0xD800 <=? c)%N && (c <=? 0xDFFF)%N); [discriminate |].
    intros [= <-]. split; [| discriminate].
    repeat constructor; try apply Hcont.
    apply high_byte_lor; [reflexivity | lia |].
    apply N.lt_trans with 16%N; [| lia]. apply N_shiftr_lt.
    change (2 ^ 12 * 16)%N with 0x10000%N. assumption. }
  destruct (N.ltb_spec c 0x110000); [| discriminate].
  intros [= <-]. split; [| discriminate].
  repeat constructor; try apply Hcont.
  apply high_byte_lor; [reflexivity | lia |].
  apply N.lt_trans with 5%N; [| lia]. apply N_shiftr_lt.
  change (2 ^ 18 * 5)%N with 0x140000%N. lia.
Qed.

Lemma high_byte_plain (b : byte) :
  high_byte b -> b <> x00 /\ is_digit b = false.
Proof.
  unfold high_byte, is_digit. intros Hb. split.
  - intros ->. cbn in Hb. lia.
  - apply andb_false_iff. right. apply N.leb_gt. lia.
Qed.

Lemma utf8_char_low (c : N) :
  (c < 128)%N -> utf8_char c = Ok [byte_of_N c].
Proof.
  intros Hc. unfold utf8_char.
  by destruct (N.ltb_spec c 0x80); [| lia].
Qed.

(** A str without [U+0000] is encoded without a zero byte. *)
Lemma encode_no_zero (s : str) (bs : bytes) :
  Forall (fun c => c <> 0%N) s -> encode s = Ok bs ->
  Forall (fun b => b <> x00) bs.
Proof.
  intros Hs. revert bs.
  induction Hs as [| c s Hc _ IH]; intros bs; cbn [encode].
  - intros [= <-]. constructor.
  - destruct (utf8_char c) as [cb |] eqn:Hcb; cbn; [| discriminate].
    destruct (encode s) as [rest |]; cbn; [| discriminate].
    intros [= <-]. apply Forall_app. split; [| by apply IH].
    destruct (N.lt_ge_cases c 128) as [Hlow | Hhigh].
    + rewrite (utf8_char_low c Hlow) in Hcb. injection Hcb as <-.
      constructor; [| constructor].
      intros Hb. apply (f_equal Byte.to_N) in Hb.
      rewrite to_N_byte_of_N in Hb by lia. cbn in Hb. congruence.
    + destruct (utf8_char_high c cb Hhigh Hcb) as [Hall _].
      eapply Forall_impl; [exact Hall |].
      intros b Hb. by apply high_byte_plain.
Qed.

(** A str with a character that is not an ASCII digit is encoded with a
    byte that is not a digit. *)
Lemma encode_not_digits (s : str) (bs : bytes) :
  Exists (fun c => ~ digit_char c) s -> encode s = Ok bs ->
  Exists (fun b => is_digit b = false) bs.
Proof.
  intros Hs. revert bs.
  induction Hs as [c s Hc | c s _ IH]; intros bs; cbn [encode];
    destruct (utf8_char c) as [cb |] eqn:Hcb; cbn; try discriminate;
    destruct (encode s) as [rest |]; cbn; try discriminate;
    intros [= <-]; apply Exists_app.
  - left. destruct (N.lt_ge_cases c 128) as [Hlow | Hhigh].
    + rewrite (utf8_char_low c Hlow) in Hcb. injection Hcb as <-.
      apply Exists_cons_hd. unfold is_digit.
      rewrite to_N_byte_of_N by lia. unfold digit_char in Hc.
      destruct (N.leb_spec 48 c); destruct (N.leb_spec c 57);
        cbn [andb]; try reflexivity; lia.
    + destruct (utf8_char_high c cb Hhigh Hcb) as [Hall Hne].
      destruct cb as [| b cb]; [congruence |].
      apply Forall_cons in Hall as [Hb _].
      apply Exists_cons_hd. by apply high_byte_plain.
  - right. by apply IH.
Qed.

(** ** Records without a second marker *)

Lemma plain_textb_correct (s : str) : plain_textb s = true -> plain_text s.
Proof.
  unfold plain_textb, plain_text. intros [Hall Hex]%andb_true_iff. split.
  - apply Forall_forall. intros c Hc%list_elem_of_In.
    rewrite forallb_forall in Hall. specialize (Hall c Hc).
    apply negb_true_iff, N.eqb_neq in Hall. exact Hall.
  - destruct s as [| c0 s]; [by left | right].
    apply existsb_exists in Hex as (c & Hc%list_elem_of_In & Hnd).
    apply Exists_exists. exists c. split; [exact Hc |].
    unfold digit_char. intros [Hlo Hhi].
    apply N.leb_le in Hlo, Hhi. rewrite Hlo, Hhi in Hnd. discriminate.
Qed.

Lemma plain_text_value (s : str) (bs : bytes) :
  plain_text s -> encode s = Ok bs -> plain_value bs.
Proof.
  intros [Hnz Hnd] Hbs. split; [by eapply encode_no_zero |].
  destruct Hnd as [-> | Hex].
  - left. by injection Hbs as <-.
  - right. by eapply encode_not_digits.
Qed.

Lemma occurrences_short (l : bytes) : length l < 3 -> occurrences l = [].
Proof.
  induction l as [| b t IH]; [reflexivity |]. intros Hlen.
  rewrite occurrences_cons.
  destruct (match_at (b :: t)) as [[ds rest] |] eqn:Hm.
  - apply match_at_length in Hm. lia.
  - apply IH. cbn [length] in Hlen. lia.
Qed.

Lemma occurrences_no_zero (k l : bytes) :
  Forall (fun b => b <> x00) k -> occurrences (k ++ l) = occurrences l.
Proof.
  induction 1 as [| b k Hb _ IH]; [reflexivity |].
  cbn [app]. rewrite occurrences_cons. cbn [match_at].
  destruct (decide (b = x00)); [congruence | exact IH].
Qed.

Lemma split_at_zero (a a' r r' : bytes) :
  Forall (fun b => b <> x00) a -> Forall (fun b => b <> x00) a' ->
  a ++ x00 :: r = a' ++ x00 :: r' -> a = a' /\ r = r'.
Proof.
  intros Ha. revert a'.
  induction Ha as [| b a Hb _ IH]; intros a' Ha' Heq.
  - destruct Ha' as [| b' a' Hb' _]; cbn [app] in Heq.
    + by injection Heq as <-.
    + injection Heq as <- _. congruence.
  - destruct Ha' as [| b' a' Hb' Ha']; cbn [app] in Heq.
    + injection Heq as -> _. congruence.
    + injection Heq as <- Heq. destruct (IH a' Ha' Heq) as [<- <-].
      by split.
Qed.

Lemma match_at_plain_value (v rest : bytes) :
  plain_value v -> match_at (x00 :: v ++ x00 :: rest) = None.
Proof.
  intros [Hnz Hnd].
  destruct (match_at (x00 :: v ++ x00 :: rest)) as [[ds r'] |] eqn:Hm;
    [| reflexivity].
  apply match_at_spec in Hm as (Heq & Hne & Hds). injection Heq as Heq.
  apply split_at_zero in Heq as [-> _]; [| exact Hnz |].
  - destruct Hnd as [-> | Hex]; [congruence |].
    apply Exists_exists in Hex as (b & Hb & Hnot).
    rewrite Forall_forall in Hds. rewrite (Hds b Hb) in Hnot. discriminate.
  - eapply Forall_impl; [exact Hds |].
    intros b Hb. by apply is_digit_not_x00.
Qed.

(** A key, its zero byte, a plain value and its zero byte hold no
    occurrence, whatever byte that is neither zero nor a digit follows. *)
Lemma occurrences_field (key v : bytes) (c : byte) :
  Forall (fun b => b <> x00) key -> plain_value v -> barrier c ->
  occurrences ((key ++ x00 :: v ++ [x00]) ++ [c]) = [].
Proof.
  intros Hkey Hv Hc.
  rewrite <- app_assoc. cbn [app]. rewrite <- app_assoc. cbn [app].
  rewrite occurrences_no_zero by exact Hkey.
  rewrite occurrences_cons, (match_at_plain_value v [c] Hv).
  rewrite occurrences_no_zero by apply Hv.
  apply occurrences_short. cbn. lia.
Qed.

Lemma record_layout_split (idx id_b nb eb db ic : bytes) :
  record_layout idx id_b nb eb db ic
  = (x00 :: idx ++ [x00]) ++ x02 ::
    ((lit "appid" ++ x00 :: id_b) ++ x01 ::
     ((lit "appname" ++ x00 :: nb ++ [x00]) ++ x01 ::
      ((lit "exe" ++ x00 :: eb ++ [x00]) ++ x01 ::
       ((lit "StartDir" ++ x00 :: db ++ [x00]) ++ x01 ::
        ((lit "icon" ++ x00 :: ic ++ [x00]) ++ [x08]))))).
Proof.
  unfold record_layout.
  repeat first [progress cbn [app] | rewrite <- app_assoc]. reflexivity.
Qed.

Lemma str_of_int_no_zero (z : Z) : Forall (fun c => c <> 0%N) (str_of_int z).
Proof.
  assert (HN : forall n, Forall (fun c => c <> 0%N) (str_of_N n)).
  { intros n. destruct (str_of_N_spec n) as (Hdig & _).
    eapply Forall_impl; [exact Hdig |].
    unfold digit_char. intros c Hc. lia. }
  unfold str_of_int. destruct z; [apply HN | apply HN |].
  constructor; [lia | apply HN].
Qed.

Lemma occurrences_plain_layout (i : Z) (id_b nb eb db ic : bytes) :
  (0 <= i)%Z -> plain_appid id_b ->
  plain_value nb -> plain_value eb -> plain_value db -> plain_value ic ->
  occurrences (record_layout (decimal i) id_b nb eb db ic) = [decimal i].
Proof.
  intros Hi Hid Hnb Heb Hdb Hic.
  assert (Hx01 : barrier x01) by (split; [discriminate | reflexivity]).
  assert (Hx02 : barrier x02) by (split; [discriminate | reflexivity]).
  assert (Hkey : forall s, Forall (fun b => b <> x00) (lit s) ->
            forall v c, plain_value v -> barrier c ->
            occurrences ((lit s ++ x00 :: v ++ [x00]) ++ [c]) = []).
  { intros s Hs v c Hv Hc. by apply occurrences_field. }
  assert (Happid : occurrences ((lit "appid" ++ x00 :: id_b) ++ [x01]) = []).
  { rewrite <- app_assoc. cbn [app].
    rewrite occurrences_no_zero by (repeat constructor; discriminate).
    exact Hid. }
  assert (Hmarker : occurrences ((x00 :: decimal i ++ [x00]) ++ [x02])
                    = [decimal i]).
  { destruct (decimal_nonneg i Hi) as (Hdig & _ & d & ds & Hd & _).
    assert (Hm : match_at ((x00 :: decimal i ++ [x00]) ++ [x02])
                 = Some (decimal i, [x02])).
    { apply match_at_spec. split; [| split; [by rewrite Hd | exact Hdig]].
      cbn [app]. by rewrite <- app_assoc. }
    rewrite (occurrences_match _ _ _ Hm). reflexivity. }
  rewrite record_layout_split.
  rewrite (occurrences_barrier (x00 :: decimal i ++ [x00]) _ x02 Hx02).
  rewrite (occurrences_barrier (lit "appid" ++ x00 :: id_b) _ x01 Hx01).
  rewrite (occurrences_barrier (lit "appname" ++ x00 :: nb ++ [x00]) _ x01
             Hx01).
  rewrite (occurrences_barrier (lit "exe" ++ x00 :: eb ++ [x00]) _ x01 Hx01).
  rewrite (occurrences_barrier (lit "StartDir" ++ x00 :: db ++ [x00]) _ x01
             Hx01).
  rewrite Hmarker, Happid.
  rewrite !Hkey;
    try assumption; try apply barrier_x08;
    try (repeat constructor; discriminate).
Qed.

Lemma icon_value_plain (cfg_b : bytes) (id : Z) :
  Forall (fun b => b <> x00) cfg_b ->
  plain_value (cfg_b ++ lit "/grid/" ++ decimal id ++ lit "_icon.ico").
Proof.
  intros Hcfg. split.
  - rewrite !Forall_app. split; [exact Hcfg |].
    split; [repeat constructor; discriminate |].
    split; [| repeat constructor; discriminate].
    apply (encode_no_zero (str_of_int id));
      [apply str_of_int_no_zero | apply encode_str_of_int].
  - right. apply Exists_app. right. apply Exists_cons_hd. reflexivity.
Qed.

Lemma make_entry_occurrences (config_dir : str) (i id : Z)
    (appname exe startdir : str) (id_b r : bytes) :
  (0 <= i)%Z ->
  struct_pack_I id = Ok id_b -> plain_appid id_b ->
  plain_text appname -> plain_text exe -> plain_text startdir ->
  Forall (fun c => c <> 0%N) config_dir ->
  make_entry config_dir i id appname exe startdir = Ok r ->
  occurrences r = [decimal i].
Proof.
  intros Hi Hpack Hid Hn He Hd Hcfg Hr.
  apply make_entry_inv in Hr
    as (id_b' & nb & eb & db & cb & Hp & Hnb & Heb & Hdb & Hcb & ->).
  rewrite Hpack in Hp. injection Hp as <-.
  apply occurrences_plain_layout; [exact Hi | exact Hid | | | |].
  - exact (plain_text_value _ _ Hn Hnb).
  - exact (plain_text_value _ _ He Heb).
  - exact (plain_text_value _ _ Hd Hdb).
  - apply icon_value_plain. exact (encode_no_zero _ _ Hcfg Hcb).
Qed.

(** X5. A record of [make_entry] for an index [i >= 0] holds the pattern
    once only, as its index marker, when the name, the path and the
    directory have no [U+0000] and are not made of ASCII digits only,
    [config_dir] has no [U+0000], and the four bytes of the identifier do
    not form the pattern.  The scan of such a record alone finds the digits
    of [i], and after the record has been inserted into a database of such
    records the next index is [i + 1]. *)
Theorem X5_plain_record_sufficient (config_dir : str) (i id : Z)
    (appname exe startdir : str) (id_b r : bytes)
    (recs : list (Z * bytes)) :
  (0 <= i)%Z ->
  struct_pack_I id = Ok id_b -> plain_appid id_b ->
  plain_text appname -> plain_text exe -> plain_text startdir ->
  Forall (fun c => c <> 0%N) config_dir ->
  make_entry config_dir i id appname exe startdir = Ok r ->
  plain_record (i, r) /\
  findall r = [decimal i] /\
  (Forall plain_record recs ->
   (get_latest_index (new_data (database (map snd recs)) r) + 1)%Z
   = (i + 1)%Z).
Proof.
  intros Hi Hpack Hid Hn He Hd Hcfg Hr.
  assert (Hplain : plain_record (i, r)).
  { split; [exact Hi |].
    split; [by exists config_dir, id, appname, exe, startdir |].
    cbn [snd].
    by rewrite (make_entry_occurrences _ _ _ _ _ _ _ _
                  Hi Hpack Hid Hn He Hd Hcfg Hr). }
  split; [exact Hplain |].
  split; [exact (findall_plain_record _ Hplain) |].
  intros Hrecs. by apply next_index_after_insert_plain.
Qed.

Lemma X5_plain_record_sufficient_witness :
  exists r,
    make_entry sample_config_dir 2 3694483457 APPNAME (slit "/home/u/run.sh")
      (slit "/home/u/data") = Ok r /\
    plain_record (2%Z, r) /\
    (get_latest_index
       (new_data (database [sample_record 0; sample_record 1]) r) + 1)%Z
    = 3%Z.
Proof.
  destruct (make_entry sample_config_dir 2 3694483457 APPNAME
              (slit "/home/u/run.sh") (slit "/home/u/data")) as [r |] eqn:Hr;
    [| vm_compute in Hr; discriminate].
  exists r.
  destruct (X5_plain_record_sufficient sample_config_dir 2 3694483457 APPNAME
              (slit "/home/u/run.sh") (slit "/home/u/data")
              [x01; "X"%byte; "5"%byte; xdc] r
              [(0%Z, sample_record 0); (1%Z, sample_record 1)])
    as (Hplain & _ & Hnext);
    [lia | reflexivity | reflexivity
     | by apply plain_textb_correct | by apply plain_textb_correct
     | by apply plain_textb_correct
     | apply (proj1 (plain_textb_correct sample_config_dir eq_refl))
     | exact Hr |].
  split; [reflexivity |]. split; [exact Hplain |].
  apply Hnext.
  constructor;
    [apply sample_record_plain; [lia | reflexivity | discriminate] |].
  constructor;
    [apply sample_record_plain; [lia | reflexivity | discriminate] |].
  constructor.
Defined.

(** ** How a run ends *)

Lemma slit_scalar (s : string) : Forall scalar_value (slit s).
Proof.
  unfold slit. apply Forall_forall.
  intros c (b & -> & _)%list_elem_of_fmap.
  pose proof (Byte.to_N_bounded b). unfold scalar_value. lia.
Qed.

Lemma appid_u32 (name exe : str) (id : Z) :
  appid name exe = Ok id -> (0 <= id < 2 ^ 32)%Z.
Proof.
  unfold appid. destruct (encode (name ++ exe)) as [bs |]; cbn;
    [| discriminate].
  intros [= <-]. rewrite (land_mask32 _ (u32_crc32 bs)).
  apply u32_lor; [unfold u32; lia | apply u32_crc32].
Qed.

Lemma appid_outcome (name exe : str) :
  (Forall scalar_value (name ++ exe) /\ exists id, appid name exe = Ok id) \/
  (~ Forall scalar_value (name ++ exe) /\
   appid name exe = Raise UnicodeEncodeError).
Proof.
  unfold appid. destruct (encode (name ++ exe)) as [bs | e] eqn:Hbs; cbn.
  - left. split; [by eapply encode_Ok_scalar | eauto].
  - right. rewrite (encode_Raise _ _ Hbs) in *. split; [| reflexivity].
    intros Hs. destruct (encode_total _ Hs) as [bs Hbs'].
    rewrite Hbs' in Hbs. discriminate.
Qed.

(** The three ways in which the statements behind the read can end. *)
Lemma after_open_outcome (config_dir EXE STARTDIR : str) (data : bytes)
    (w : world) :
  let o := (after_open config_dir EXE STARTDIR data w).2 in
  let encodable := Forall scalar_value (EXE ++ STARTDIR ++ config_dir) in
  (encodable /\ endswith data [x08; x08] = true /\ o = Continues) \/
  (encodable /\ endswith data [x08; x08] = false /\ o = Exit 1) \/
  (~ encodable /\ o = Uncaught UnicodeEncodeError).
Proof.
  intros o encodable. subst o encodable. unfold after_open.
  pose proof (slit_scalar "Minecraft Splitscreen") as Hname.
  fold APPNAME in Hname.
  destruct (appid_outcome APPNAME EXE) as [[Hs [id Hid]] | [Hs Hid]];
    rewrite Hid.
  - pose proof (appid_u32 _ _ _ Hid) as Hrange.
    remember (make_entry config_dir (get_latest_index data + 1) id APPNAME
                EXE STARTDIR) as m eqn:Hm.
    symmetry in Hm. destruct m as [entry | e].
    + apply make_entry_Ok_valid in Hm as [_ Hall].
      apply Forall_app in Hall as [_ Hall].
      unfold insert_entry.
      destruct (endswith data [x08; x08]); [left | right; left]; by cbn.
    + right. right.
      rewrite (make_entry_raise_unicode _ _ _ _ _ _ _ Hrange Hm) in *.
      split; [| reflexivity]. intros Hall.
      destruct (make_entry_total config_dir (get_latest_index data + 1) id
                  APPNAME EXE STARTDIR Hrange) as [r Hr];
        [apply Forall_app; by split |].
      rewrite Hr in Hm. discriminate.
  - right. right. split; [| reflexivity].
    intros (He & _)%Forall_app. apply Hs. apply Forall_app. by split.
Qed.


(** X7. A run touches one file only: every other path holds after the run
    what it held before, and the only directory that can be new is
    [config_dir], which is created only when the file was absent. *)
Theorem X7_main_frame (config_dir EXE STARTDIR : str) (w : world) :
  (forall path,
     path <> shortcuts_file config_dir ->
     files (main config_dir EXE STARTDIR w).1 !! path = files w !! path) /\
  (is_Some (files w !! shortcuts_file config_dir) ->
   dirs (main config_dir EXE STARTDIR w).1 = dirs w) /\
  (files w !! shortcuts_file config_dir = None ->
   dirs (main config_dir EXE STARTDIR w).1 = {[config_dir]} ∪ dirs w /\
   is_Some (files (main config_dir EXE STARTDIR w).1
              !! shortcuts_file config_dir)).
Proof.
  assert (Hgen : forall data w0,
            (forall path, path <> shortcuts_file config_dir ->
               files (after_open config_dir EXE STARTDIR data w0).1 !! path
               = files w0 !! path) /\
            dirs (after_open config_dir EXE STARTDIR data w0).1 = dirs w0 /\
            (is_Some (files w0 !! shortcuts_file config_dir) ->
             is_Some (files (after_open config_dir EXE STARTDIR data w0).1
                        !! shortcuts_file config_dir))).
  { intros data w0. unfold after_open.
    destruct (appid APPNAME EXE) as [id |]; [| by repeat split].
    destruct (make_entry _ _ _ _ _ _) as [entry |]; [| by repeat split].
    unfold insert_entry.
    destruct (endswith data [x08; x08]); cbn [fst print write_file files dirs];
      [| by repeat split].
    split; [| split; [reflexivity |]].
    - intros path Hpath. by rewrite lookup_insert_ne.
    - intros _. rewrite lookup_insert_eq. eauto. }
  destruct (files w !! shortcuts_file config_dir) as [data |] eqn:Hfile.
  - rewrite (main_present _ _ _ _ _ Hfile).
    destruct (Hgen data (World (files w) (dirs w)
                (trace w ++ [ReadFile (shortcuts_file config_dir)])))
      as (Hf & Hd & _).
    split; [exact Hf |]. split; [intros _; exact Hd | discriminate].
  - rewrite (main_absent _ _ _ _ Hfile).
    destruct (Hgen skeleton
                (World (<[shortcuts_file config_dir := skeleton]> (files w))
                   ({[config_dir]} ∪ dirs w)
                   (trace w ++ [Makedirs config_dir;
                      WriteFile (shortcuts_file config_dir) skeleton;
                      ReadFile (shortcuts_file config_dir)])))
      as (Hf & Hd & Hs).
    cbn [files dirs] in *.
    split; [| split; [by intros [? ?] |]].
    + intros path Hpath. rewrite (Hf path Hpath).
      by rewrite lookup_insert_ne.
    + intros _. split; [exact Hd |].
      apply Hs. rewrite lookup_insert_eq. eauto.
Qed.


Lemma X7_main_frame_witness :
  let w := World {[slit "/other" := lit "kept"]} ∅ [] in
  files (main (slit "/c") (slit "/e") (slit "/d") w).1 !! slit "/other"
  = Some (lit "kept") /\
  dirs (main (slit "/c") (slit "/e") (slit "/d") w).1 = {[slit "/c"]} ∪ ∅.
Proof.
  intros w.
  destruct (X7_main_frame (slit "/c") (slit "/e") (slit "/d") w)
    as (Hfiles & _ & Hdirs).
  split.
  - rewrite Hfiles; [reflexivity | vm_compute; discriminate].
  - apply Hdirs. vm_compute. reflexivity.
Defined.

(** ** Consecutive indices *)

Lemma indices_last (recs : list (Z * bytes)) :
  map fst recs = map Z.of_nat (seq 0 (length recs)) ->
  match last recs with
  | Some ir => (ir.1 + 1)%Z
  | None => 0%Z
  end = Z.of_nat (length recs).
Proof.
  destruct recs as [| ir0 recs0] using rev_ind; [reflexivity |].
  rewrite last_snoc, length_app, map_app. cbn [length map].
  replace (length recs0 + 1) with (S (length recs0)) by lia.
  rewrite seq_S, map_app. cbn [map].
  intros [_ [= ->]]%app_inj_tail_iff. lia.
Qed.

(** One run with plain arguments on a database of plain records with the
    indices [0 .. n-1] adds a plain record with the index [n]. *)
Lemma main_plain_step (config_dir EXE STARTDIR : str) (w : world)
    (recs : list (Z * bytes)) :
  Forall (fun c => c <> 0%N) config_dir -> Forall scalar_value config_dir ->
  (files w !! shortcuts_file config_dir = Some (database (map snd recs)) \/
   (recs = [] /\ files w !! shortcuts_file config_dir = None)) ->
  Forall plain_record recs ->
  map fst recs = map Z.of_nat (seq 0 (length recs)) ->
  plain_run (EXE, STARTDIR) ->
  exists id r,
    appid APPNAME EXE = Ok id /\
    make_entry config_dir (Z.of_nat (length recs)) id APPNAME EXE STARTDIR
    = Ok r /\
    plain_record (Z.of_nat (length recs), r) /\
    (main config_dir EXE STARTDIR w).2 = Continues /\
    files (main config_dir EXE STARTDIR w).1 !! shortcuts_file config_dir
    = Some (database (map snd (recs ++ [(Z.of_nat (length recs), r)]))).
Proof.
  intros Hnz Hsc Hfile Hrecs Hidx (Hexe & Hdir & Hdirsc & id & id_b & Hid & Hpack & Hplain).
  cbn [fst snd] in *.
  pose proof (appid_u32 _ _ _ Hid) as Hrange.
  assert (Hexesc : Forall scalar_value EXE).
  { destruct (appid_outcome APPNAME EXE) as [[Hs _] | [_ Hraise]];
      [by apply Forall_app in Hs as [_ ?] | congruence]. }
  assert (Hnext : (get_latest_index (database (map snd recs)) + 1)%Z
                  = Z.of_nat (length recs)).
  { rewrite (proj2 (plain_database recs Hrecs)). by apply indices_last. }
  destruct (make_entry_total config_dir (Z.of_nat (length recs)) id APPNAME
              EXE STARTDIR Hrange) as [r Hr].
  { rewrite !Forall_app. repeat split; try assumption. apply slit_scalar. }
  assert (Hpr : plain_record (Z.of_nat (length recs), r)).
  { split; [cbn; lia |].
    split; [by exists config_dir, id, APPNAME, EXE, STARTDIR |]. cbn [snd].
    rewrite (make_entry_occurrences _ _ _ _ _ _ _ _
               (Nat2Z.is_nonneg (length recs)) Hpack Hplain
               (plain_textb_correct APPNAME eq_refl) Hexe Hdir Hnz Hr).
    reflexivity. }
  exists id, r. split; [exact Hid |]. split; [exact Hr |].
  split; [exact Hpr |].
  assert (Hafter : forall w0,
            after_open config_dir EXE STARTDIR (database (map snd recs)) w0
            = (print (MsgAdded (Z.of_nat (length recs)) id)
                 (write_file (shortcuts_file config_dir)
                    (database (map snd recs ++ [r])) w0), Continues)).
  { intros w0. unfold after_open. rewrite Hid, Hnext, Hr.
    rewrite insert_entry_accepts, new_data_database; [reflexivity |].
    apply endswith_true. unfold database. eexists.
    rewrite app_assoc. reflexivity. }
  rewrite map_app. cbn [map snd].
  destruct Hfile as [Hfile | [-> Hfile]].
  - rewrite (main_present _ _ _ _ _ Hfile), Hafter.
    split; [reflexivity |]. cbn [fst print write_file files].
    apply lookup_insert_eq.
  - rewrite (main_absent _ _ _ _ Hfile).
    change skeleton with (database (map snd (@nil (Z * bytes)))).
    rewrite Hafter.
    split; [reflexivity |]. cbn [fst print write_file files].
    apply lookup_insert_eq.
Qed.

Lemma runs_plain (config_dir : str) (args : list (str * str)) :
  Forall (fun c => c <> 0%N) config_dir -> Forall scalar_value config_dir ->
  Forall plain_run args ->
  forall (w : world) (recs : list (Z * bytes)),
    (files w !! shortcuts_file config_dir = Some (database (map snd recs)) \/
     (recs = [] /\ files w !! shortcuts_file config_dir = None)) ->
    Forall plain_record recs ->
    map fst recs = map Z.of_nat (seq 0 (length recs)) ->
    exists recs',
      (args <> [] ->
       files (runs config_dir args w).1 !! shortcuts_file config_dir
       = Some (database (map snd (recs ++ recs')))) /\
      Forall plain_record (recs ++ recs') /\
      map fst (recs ++ recs')
      = map Z.of_nat (seq 0 (length recs + length args)) /\
      Forall2 (fun a ir =>
                 exists id, appid APPNAME a.1 = Ok id /\
                            make_entry config_dir ir.1 id APPNAME a.1 a.2
                            = Ok ir.2) args recs' /\
      Forall (fun o => o = Continues) (runs config_dir args w).2.
Proof.
  intros Hnz Hsc Hargs.
  induction Hargs as [| [EXE STARTDIR] args Ha _ IH]; intros w recs Hfile Hrecs Hidx.
  - exists []. rewrite app_nil_r, Nat.add_0_r.
    split; [congruence |]. repeat split; [assumption | assumption | | ];
      constructor.
  - destruct (main_plain_step config_dir EXE STARTDIR w recs Hnz Hsc Hfile
                Hrecs Hidx Ha) as (id & r & Hid & Hr & Hpr & Ho & Hf).
    cbn [runs].
    destruct (main config_dir EXE STARTDIR w) as [w1 o] eqn:Hmain.
    cbn [fst snd] in Ho, Hf. subst o.
    set (recs1 := recs ++ [(Z.of_nat (length recs), r)]) in *.
    assert (Hrecs1 : Forall plain_record recs1)
      by (apply Forall_app; split; [exact Hrecs | by constructor]).
    assert (Hidx1 : map fst recs1 = map Z.of_nat (seq 0 (length recs1))).
    { unfold recs1. rewrite map_app, length_app, Hidx. cbn [length map fst].
      replace (length recs + 1) with (S (length recs)) by lia.
      by rewrite seq_S, map_app. }
    destruct (IH w1 recs1 (or_introl Hf) Hrecs1 Hidx1)
      as (recs' & Hfile' & Hplain' & Hix' & Hmade & Houts).
    destruct (runs config_dir args w1) as [w2 os] eqn:Hruns.
    cbn [fst snd] in *.
    exists ((Z.of_nat (length recs), r) :: recs').
    replace (recs ++ (Z.of_nat (length recs), r) :: recs')
      with (recs1 ++ recs') by (unfold recs1; by rewrite <- app_assoc).
    split.
    { intros _. destruct args as [| a args].
      - cbn [runs] in Hruns. injection Hruns as <- <-.
        apply Forall2_nil_inv_l in Hmade as ->. by rewrite app_nil_r.
      - by apply Hfile'. }
    split; [exact Hplain' |]. split.
    { rewrite Hix'. unfold recs1. rewrite length_app. cbn [length].
      replace (length recs + 1 + length args)
        with (length recs + S (length args)) by lia.
      reflexivity. }
    split; [| by constructor].
    constructor; [| exact Hmade]. exists id. by split.
Qed.

(** X8. Starting without a file, any sequence of runs with plain arguments
    leaves a database that holds one record for each run, in the order of
    the runs, with the indices 0, 1, 2, ...; every run goes on to the
    artwork. *)
Theorem X8_runs_sequential (config_dir : str) (args : list (str * str))
    (w : world) :
  files w !! shortcuts_file config_dir = None ->
  Forall (fun c => c <> 0%N) config_dir -> Forall scalar_value config_dir ->
  Forall plain_run args -> args <> [] ->
  exists recs,
    files (runs config_dir args w).1 !! shortcuts_file config_dir
    = Some (database (map snd recs)) /\
    map fst recs = map Z.of_nat (seq 0 (length args)) /\
    Forall2 (fun a ir =>
               exists id, appid APPNAME a.1 = Ok id /\
                          make_entry config_dir ir.1 id APPNAME a.1 a.2
                          = Ok ir.2) args recs /\
    Forall (fun o => o = Continues) (runs config_dir args w).2.
Proof.
  intros Hfile Hnz Hsc Hargs Hne.
  destruct (runs_plain config_dir args Hnz Hsc Hargs w [])
    as (recs & Hf & _ & Hidx & Hmade & Houts);
    [by right | constructor | reflexivity |].
  exists recs. cbn [app length] in *.
  split; [by apply Hf |]. by repeat split.
Qed.

Lemma X8_runs_sequential_witness :
  let args := [(slit "/home/u/run.sh", slit "/home/u/data");
               (slit "/home/u/run.sh", slit "/home/u/data")] in
  exists recs,
    files (runs sample_config_dir args (World ∅ ∅ [])).1
      !! shortcuts_file sample_config_dir
    = Some (database (map snd recs)) /\
    map fst recs = [0%Z; 1%Z].
Proof.
  intros args.
  assert (Hrun : plain_run (slit "/home/u/run.sh", slit "/home/u/data")).
  { split; [by apply plain_textb_correct |].
    split; [by apply plain_textb_correct |].
    split; [apply slit_scalar |].
    exists 3694483457%Z, [x01; "X"%byte; "5"%byte; xdc].
    split; [vm_compute; reflexivity |]. split; reflexivity. }
  destruct (X8_runs_sequential sample_config_dir args (World ∅ ∅ []))
    as (recs & Hfile & Hidx & _);
    [vm_compute; reflexivity
    | apply (proj1 (plain_textb_correct sample_config_dir eq_refl))
    | apply slit_scalar
    | constructor; [exact Hrun |]; constructor; [exact Hrun | constructor]
    | discriminate |].
  exists recs. split; [exact Hfile | exact Hidx].
Defined.

(** ** The artwork loop *)

Section Artwork.

Variable net : str -> response.
Variable grid_dir : str.
Variable id : Z.

Lemma opened_app (l1 l2 : list art_event) :
  opened (l1 ++ l2) = opened l1 ++ opened l2.
Proof.
  induction l1 as [| e l1 IH]; [reflexivity |].
  destruct e; cbn [app opened]; by rewrite IH.
Qed.

Lemma image_step_dirs (s : session) (item : str * str) :
  s_dirs (image_step net grid_dir id s item) = s_dirs s.
Proof.
  unfold image_step. destruct item as [suffix url].
  destruct (os_path_exists _ _ _); [reflexivity |].
  by destruct (net url).
Qed.

Lemma image_step_other (s : session) (item : str * str) (q : str) :
  q <> image_path grid_dir id item ->
  s_files (image_step net grid_dir id s item) !! q = s_files s !! q.
Proof.
  intros Hq. unfold image_step. destruct item as [suffix url].
  destruct (os_path_exists _ _ _); [reflexivity |].
  destruct (net url); cbn [say s_files]; by rewrite ?lookup_insert_ne.
Qed.

Lemma image_step_present (s : session) (item : str * str) :
  image_missing grid_dir id s item = false ->
  s_files (image_step net grid_dir id s item) = s_files s /\
  opened (s_log (image_step net grid_dir id s item)) = opened (s_log s).
Proof.
  unfold image_missing, image_step. intros Hex%negb_false_iff.
  destruct item as [suffix url]. rewrite Hex. cbn [say s_files s_log].
  split; [reflexivity |]. by rewrite opened_app, app_nil_r.
Qed.

Lemma image_step_absent (s : session) (item : str * str) :
  image_missing grid_dir id s item = true ->
  s_files (image_step net grid_dir id s item) !! image_path grid_dir id item
  = stored (net item.2) /\
  opened (s_log (image_step net grid_dir id s item))
  = opened (s_log s) ++ [item.2].
Proof.
  unfold image_missing, image_step. intros Hex%negb_true_iff.
  destruct item as [suffix url]. rewrite Hex. cbn [snd].
  assert (Hnone : s_files s !! image_path grid_dir id (suffix, url) = None).
  { unfold os_path_exists in Hex. apply orb_false_iff in Hex as [Hf _].
    apply bool_decide_eq_false in Hf.
    destruct (s_files s !! _); [exfalso; eauto | reflexivity]. }
  destruct (net url); cbn [say s_files s_log stored];
    rewrite ?lookup_insert_eq, ?opened_app; cbn [opened];
    rewrite ?app_nil_r; by split.
Qed.

Lemma image_step_missing_other (s : session) (item other : str * str) :
  image_path grid_dir id other <> image_path grid_dir id item ->
  image_missing grid_dir id (image_step net grid_dir id s item) other
  = image_missing grid_dir id s other.
Proof.
  intros Hne. unfold image_missing, os_path_exists.
  by rewrite image_step_dirs, (image_step_other s item _ Hne).
Qed.

Lemma image_step_keeps (s : session) (item : str * str) (q : str) :
  os_path_exists q (s_files s) (s_dirs s) = true ->
  s_files (image_step net grid_dir id s item) !! q = s_files s !! q /\
  os_path_exists q (s_files (image_step net grid_dir id s item))
    (s_dirs (image_step net grid_dir id s item)) = true.
Proof.
  intros Hq.
  assert (Hsame : s_files (image_step net grid_dir id s item) !! q
                  = s_files s !! q).
  { destruct (decide (q = image_path grid_dir id item)) as [-> | Hne];
      [| by apply image_step_other].
    destruct (image_step_present s item) as [-> _]; [| reflexivity].
    unfold image_missing. by rewrite Hq. }
  split; [exact Hsame |].
  unfold os_path_exists in *. by rewrite image_step_dirs, Hsame.
Qed.

Lemma image_loop_dirs (items : list (str * str)) (s : session) :
  s_dirs (image_loop net grid_dir id items s) = s_dirs s.
Proof.
  revert s. induction items as [| item items IH]; intros s; [reflexivity |].
  unfold image_loop in *. cbn [fold_left]. by rewrite IH, image_step_dirs.
Qed.

Lemma image_loop_keeps (items : list (str * str)) (s : session) (q : str) :
  os_path_exists q (s_files s) (s_dirs s) = true ->
  s_files (image_loop net grid_dir id items s) !! q = s_files s !! q.
Proof.
  revert s. induction items as [| item items IH]; intros s Hq; [reflexivity |].
  unfold image_loop in *. cbn [fold_left].
  destruct (image_step_keeps s item q Hq) as [Hsame Hex].
  by rewrite (IH _ Hex).
Qed.

Lemma image_loop_other (items : list (str * str)) (s : session) (q : str) :
  q ∉ map (image_path grid_dir id) items ->
  s_files (image_loop net grid_dir id items s) !! q = s_files s !! q.
Proof.
  revert s. induction items as [| item items IH]; intros s Hq; [reflexivity |].
  unfold image_loop in *. cbn [fold_left map] in *.
  apply not_elem_of_cons in Hq as [Hne Hq].
  by rewrite (IH _ Hq), image_step_other.
Qed.

Lemma image_loop_opened (items : list (str * str)) :
  NoDup (map (image_path grid_dir id) items) ->
  forall s,
    opened (s_log (image_loop net grid_dir id items s))
    = opened (s_log s)
      ++ map snd (List.filter (image_missing grid_dir id s) items).
Proof.
  induction items as [| item items IH]; intros Hnd s.
  - cbn. by rewrite app_nil_r.
  - cbn [map] in Hnd. apply NoDup_cons in Hnd as [Hnotin Hnd].
    unfold image_loop in *. cbn [fold_left List.filter].
    rewrite (IH Hnd).
    assert (Hsame : List.filter
                      (image_missing grid_dir id
                         (image_step net grid_dir id s item)) items
                    = List.filter (image_missing grid_dir id s) items).
    { apply filter_ext_in. intros other Hin.
      apply image_step_missing_other. intros Heq. apply Hnotin.
      rewrite <- Heq. apply list_elem_of_fmap. exists other.
      split; [reflexivity | by apply list_elem_of_In]. }
    rewrite Hsame.
    destruct (image_missing grid_dir id s item) eqn:Hm.
    + destruct (image_step_absent s item Hm) as [_ ->].
      cbn [map]. by rewrite <- app_assoc.
    + by destruct (image_step_present s item Hm) as [_ ->].
Qed.

Lemma image_loop_stored (items : list (str * str)) :
  NoDup (map (image_path grid_dir id) items) ->
  forall s item,
    item ∈ items -> image_missing grid_dir id s item = true ->
    s_files (image_loop net grid_dir id items s)
      !! image_path grid_dir id item
    = stored (net item.2).
Proof.
  induction items as [| item0 items IH]; intros Hnd s item Hin Hm.
  - by apply elem_of_nil in Hin.
  - cbn [map] in Hnd. apply NoDup_cons in Hnd as [Hnotin Hnd].
    change (image_loop net grid_dir id (item0 :: items) s)
      with (image_loop net grid_dir id items
              (image_step net grid_dir id s item0)).
    destruct (decide (image_path grid_dir id item
                      = image_path grid_dir id item0)) as [Heq | Hne].
    + rewrite Heq.
      rewrite (image_loop_other items _ _ Hnotin).
      assert (Hm0 : image_missing grid_dir id s item0 = true)
        by (unfold image_missing in *; by rewrite <- Heq).
      destruct (image_step_absent s item0 Hm0) as [-> _].
      apply elem_of_cons in Hin as [-> | Hin]; [reflexivity |].
      exfalso. apply Hnotin. rewrite <- Heq.
      apply list_elem_of_fmap. by exists item.
    + apply elem_of_cons in Hin as [-> | Hin]; [congruence |].
      apply (IH Hnd); [exact Hin |].
      by rewrite image_step_missing_other.
Qed.

End Artwork.

(** ** The artwork of the script *)

Lemma say_files (m : art_message) (s : session) : s_files (say m s) = s_files s.
Proof. reflexivity. Qed.

Lemma say_dirs (m : art_message) (s : session) : s_dirs (say m s) = s_dirs s.
Proof. reflexivity. Qed.

Lemma say_log (m : art_message) (s : session) :
  s_log (say m s) = s_log s ++ [Say m].
Proof. reflexivity. Qed.

Section ScriptArtwork.

Variables userdata user_id : str.
Variable id : Z.

#[local] Abbreviation grid :=
  (path_join userdata [user_id; slit "config"; slit "grid"]).

Lemma image_targets_distinct :
  NoDup (map (image_path grid id) STEAMGRIDDB_IMAGES).
Proof.
  assert (Heq : map (image_path grid id) STEAMGRIDDB_IMAGES
                = map (app (config_dir_of userdata user_id ++ slit "/grid/"
                            ++ str_of_int id))
                    (map (fun item => item.1 ++ image_ext item.2)
                       STEAMGRIDDB_IMAGES)).
  { rewrite map_map. apply map_ext. intros item.
    rewrite image_path_concat, <- !app_assoc. reflexivity. }
  rewrite Heq. apply (NoDup_fmap_2 _).
  apply (bool_decide_unpack _). vm_compute. exact I.
Qed.

Lemma image_path_not_grid (item : str * str) : image_path grid id item <> grid.
Proof.
  rewrite image_path_concat, grid_dir_concat. intros Heq.
  apply (f_equal length) in Heq. rewrite !length_app in Heq.
  change (length (slit "/grid/")) with 6 in Heq.
  change (length (slit "/grid")) with 5 in Heq. lia.
Qed.

(** The session in which the loop starts: [grid_dir] has been created. *)
Lemma image_missing_makedirs (s : session) (log : list art_event)
    (item : str * str) :
  image_missing grid id (Session (s_files s) ({[grid]} ∪ s_dirs s) log) item
  = image_missing grid id s item.
Proof.
  unfold image_missing, os_path_exists. cbn [s_files s_dirs]. do 2 f_equal.
  apply bool_decide_ext. rewrite elem_of_union, elem_of_singleton.
  pose proof (image_path_not_grid item). tauto.
Qed.

Lemma artwork_unfold (net : str -> response) (s : session) :
  artwork net userdata user_id id s
  = say AllDone
      (image_loop net grid id STEAMGRIDDB_IMAGES
         (Session (s_files s) ({[grid]} ∪ s_dirs s)
            (s_log s ++ [GridMakedirs grid]))).
Proof. reflexivity. Qed.

Lemma artwork_dirs (net : str -> response) (s : session) :
  s_dirs (artwork net userdata user_id id s) = {[grid]} ∪ s_dirs s.
Proof.
  rewrite artwork_unfold.
  rewrite say_dirs, image_loop_dirs. reflexivity.
Qed.

Lemma artwork_keeps (net : str -> response) (s : session) (q : str) :
  os_path_exists q (s_files s) (s_dirs s) = true ->
  s_files (artwork net userdata user_id id s) !! q = s_files s !! q.
Proof.
  intros Hq. rewrite artwork_unfold.
  rewrite say_files, image_loop_keeps; [reflexivity |].
  unfold os_path_exists in *. cbn [s_files s_dirs].
  apply orb_true_iff in Hq as [Hq | Hq%bool_decide_eq_true].
  - rewrite Hq. reflexivity.
  - apply orb_true_iff. right. apply bool_decide_eq_true.
    apply elem_of_union. by right.
Qed.

Lemma artwork_opened (net : str -> response) (s : session) :
  opened (s_log (artwork net userdata user_id id s))
  = opened (s_log s)
    ++ map snd (List.filter (image_missing grid id s) STEAMGRIDDB_IMAGES).
Proof.
  rewrite artwork_unfold.
  rewrite say_log, opened_app. cbn [opened]. rewrite app_nil_r.
  rewrite image_loop_opened by apply image_targets_distinct.
  cbn [s_log]. rewrite opened_app. cbn [opened]. rewrite app_nil_r.
  f_equal. f_equal.
  apply filter_ext. intros item. apply image_missing_makedirs.
Qed.

Lemma artwork_stored (net : str -> response) (s : session)
    (item : str * str) :
  item ∈ STEAMGRIDDB_IMAGES -> image_missing grid id s item = true ->
  s_files (artwork net userdata user_id id s) !! image_path grid id item
  = stored (net item.2).
Proof.
  intros Hin Hm. rewrite artwork_unfold.
  rewrite say_files.
  apply image_loop_stored;
    [apply image_targets_distinct | exact Hin |].
  rewrite image_missing_makedirs. exact Hm.
Qed.

(** Whether an image is missing after a pass: it was missing before and
    the request could not be opened. *)
Lemma artwork_missing_after (net : str -> response) (s : session)
    (item : str * str) :
  item ∈ STEAMGRIDDB_IMAGES ->
  image_missing grid id (artwork net userdata user_id id s) item
  = image_missing grid id s item
    && bool_decide (stored (net item.2) = None).
Proof.
  intros Hin. destruct (image_missing grid id s item) eqn:Hm.
  - unfold image_missing, os_path_exists.
    rewrite (artwork_stored net s item Hin Hm), artwork_dirs.
    unfold image_missing, os_path_exists in Hm.
    apply negb_true_iff, orb_false_iff in Hm as [_ Hd%bool_decide_eq_false].
    assert (Hnotin : image_path grid id item ∉ {[grid]} ∪ s_dirs s).
    { rewrite elem_of_union, elem_of_singleton.
      pose proof (image_path_not_grid item). tauto. }
    rewrite (bool_decide_eq_false_2 _ Hnotin), orb_false_r. cbn [andb].
    destruct (stored (net item.2)) as [c |]; [| reflexivity].
    rewrite bool_decide_eq_true_2 by eauto.
    by rewrite bool_decide_eq_false_2.
  - cbn [andb]. unfold image_missing in *.
    apply negb_false_iff in Hm. apply negb_false_iff.
    unfold os_path_exists in *. rewrite artwork_dirs.
    rewrite (artwork_keeps net s _ Hm).
    apply orb_true_iff in Hm as [Hm | Hm%bool_decide_eq_true].
    + by rewrite Hm.
    + apply orb_true_iff. right. apply bool_decide_eq_true.
      apply elem_of_union. by right.
Qed.

End ScriptArtwork.

(** X9. The loop never writes to a path that exists: whatever the network
    does, every file and directory that was there before the artwork part
    is there afterwards with the same content (so the database that was
    just written is kept), and the only new directory is [grid_dir]. *)
Theorem X9_artwork_keeps_existing (net : str -> response)
    (userdata user_id : str) (id : Z) (s : session) (q : str) :
  os_path_exists q (s_files s) (s_dirs s) = true ->
  s_files (artwork net userdata user_id id s) !! q = s_files s !! q /\
  os_path_exists q (s_files (artwork net userdata user_id id s))
    (s_dirs (artwork net userdata user_id id s)) = true /\
  s_dirs (artwork net userdata user_id id s)
  = {[path_join userdata [user_id; slit "config"; slit "grid"]]} ∪ s_dirs s.
Proof.
  intros Hq.
  pose proof (artwork_keeps userdata user_id id net s q Hq) as Hkeep.
  pose proof (artwork_dirs userdata user_id id net s) as Hdirs.
  split; [exact Hkeep |]. split; [| exact Hdirs].
  unfold os_path_exists in *. rewrite Hkeep, Hdirs.
  apply orb_true_iff in Hq as [Hq | Hq%bool_decide_eq_true].
  - by rewrite Hq.
  - apply orb_true_iff. right. apply bool_decide_eq_true.
    apply elem_of_union. by right.
Qed.

Lemma X9_artwork_keeps_existing_witness :
  let s := Session {[slit "/c/shortcuts.vdf" := skeleton]} ∅ [] in
  s_files (artwork (fun _ => Body (lit "img")) (slit "/u") (slit "1") 7 s)
    !! slit "/c/shortcuts.vdf" = Some skeleton.
Proof.
  intros s.
  destruct (X9_artwork_keeps_existing (fun _ => Body (lit "img")) (slit "/u")
              (slit "1") 7 s (slit "/c/shortcuts.vdf")) as (H & _);
    [vm_compute; reflexivity |].
  rewrite H. vm_compute. reflexivity.
Defined.

(** X10. Which images are requested does not depend on the network: the
    requests of a pass are the URLs of the images that were missing when it
    started, in the order of the table, so a failed download never keeps a
    later one from being tried.  The five image files are different paths. *)
Theorem X10_artwork_requests (net net' : str -> response)
    (userdata user_id : str) (id : Z) (s : session) :
  let grid := path_join userdata [user_id; slit "config"; slit "grid"] in
  opened (s_log (artwork net userdata user_id id s))
  = opened (s_log s)
    ++ map snd (List.filter (image_missing grid id s) STEAMGRIDDB_IMAGES) /\
  opened (s_log (artwork net userdata user_id id s))
  = opened (s_log (artwork net' userdata user_id id s)) /\
  NoDup (map (image_path grid id) STEAMGRIDDB_IMAGES).
Proof.
  intros grid.
  split; [apply artwork_opened |].
  split; [| apply image_targets_distinct].
  by rewrite !artwork_opened.
Qed.

(** X11. For an image that was missing, what is found at its path after
    the pass depends on its own request alone: nothing when [urlopen]
    fails, an empty file when reading the body fails (the file has been
    opened for writing by then), and the body otherwise. *)
Theorem X11_artwork_stored (net : str -> response) (userdata user_id : str)
    (id : Z) (s : session) (item : str * str) :
  let grid := path_join userdata [user_id; slit "config"; slit "grid"] in
  item ∈ STEAMGRIDDB_IMAGES ->
  image_missing grid id s item = true ->
  s_files (artwork net userdata user_id id s) !! image_path grid id item
  = match net item.2 with
    | OpenFails => None
    | ReadFails => Some []
    | Body content => Some content
    end.
Proof.
  intros grid Hin Hm. subst grid.
  rewrite (artwork_stored userdata user_id id net s item Hin Hm).
  by destruct (net item.2).
Qed.

(** X12. A second pass requests exactly the images that were missing at
    the first pass and whose request could not be opened then.  An image
    whose body could not be read is not requested again: its empty file
    stays, whatever the network delivers later. *)
Theorem X12_artwork_second_pass (net net' : str -> response)
    (userdata user_id : str) (id : Z) (s : session) (item : str * str) :
  let grid := path_join userdata [user_id; slit "config"; slit "grid"] in
  let s1 := artwork net userdata user_id id s in
  let s2 := artwork net' userdata user_id id s1 in
  opened (s_log s2)
  = opened (s_log s1)
    ++ map snd
         (List.filter
            (fun item => image_missing grid id s item
                         && open_fails (net item.2))
            STEAMGRIDDB_IMAGES) /\
  (item ∈ STEAMGRIDDB_IMAGES -> image_missing grid id s item = true ->
   net item.2 = ReadFails ->
   s_files s2 !! image_path grid id item = Some []).
Proof.
  intros grid s1 s2. subst s2 s1 grid. split.
  - rewrite (artwork_opened userdata user_id id net'). f_equal. f_equal.
    apply filter_ext_in. intros it Hin%list_elem_of_In.
    rewrite (artwork_missing_after _ _ _ _ _ _ Hin).
    f_equal. by destruct (net it.2).
  - intros Hin Hm Hread.
    assert (H1 : s_files (artwork net userdata user_id id s)
                   !! image_path
                        (path_join userdata
                           [user_id; slit "config"; slit "grid"]) id item
                 = Some []).
    { rewrite (artwork_stored _ _ _ _ _ _ Hin Hm). by rewrite Hread. }
    rewrite artwork_keeps; [exact H1 |].
    unfold os_path_exists. rewrite H1.
    rewrite bool_decide_eq_true_2 by eauto. reflexivity.
Qed.

Lemma X11_artwork_stored_witness :
  let item :=
    (slit "_icon",
     slit "https://cdn2.steamgriddb.com/icon/add7a048049671970976f3e18f21ade3.ico") in
  s_files (artwork (fun _ => ReadFails) (slit "/u") (slit "1") 7
             (Session ∅ ∅ []))
    !! image_path (path_join (slit "/u") [slit "1"; slit "config"; slit "grid"])
         7 item
  = Some [].
Proof.
  intros item.
  apply (X11_artwork_stored (fun _ => ReadFails) (slit "/u") (slit "1") 7
           (Session ∅ ∅ []) item).
  - unfold STEAMGRIDDB_IMAGES. do 4 apply list_elem_of_further.
    apply list_elem_of_here.
  - vm_compute. reflexivity.
Defined.

Lemma X12_artwork_second_pass_witness :
  let item :=
    (slit "_icon",
     slit "https://cdn2.steamgriddb.com/icon/add7a048049671970976f3e18f21ade3.ico") in
  s_files (artwork (fun _ => Body (lit "icon")) (slit "/u") (slit "1") 7
             (artwork (fun _ => ReadFails) (slit "/u") (slit "1") 7
                (Session ∅ ∅ [])))
    !! image_path (path_join (slit "/u") [slit "1"; slit "config"; slit "grid"])
         7 item
  = Some [].
Proof.
  intros item.
  apply (proj2 (X12_artwork_second_pass (fun _ => ReadFails)
                  (fun _ => Body (lit "icon")) (slit "/u") (slit "1") 7
                  (Session ∅ ∅ []) item)).
  - unfold STEAMGRIDDB_IMAGES. do 4 apply list_elem_of_further.
    apply list_elem_of_here.
  - vm_compute. reflexivity.
  - reflexivity.
Defined.

(** ** The start of the script *)

Lemma find_first {A : Type} (f : A -> bool) (l : list A) (x : A) :
  List.find f l = Some x ->
  exists before after,
    l = before ++ x :: after /\ f x = true /\
    Forall (fun y => f y = false) before.
Proof.
  induction l as [| y l IH]; [discriminate |]. cbn [List.find].
  destruct (f y) eqn:Hy.
  - intros [= <-]. by exists [], l.
  - intros (before & after & -> & Hx & Hb)%IH.
    exists (y :: before), after. split; [reflexivity |].
    split; [exact Hx | by constructor].
Qed.

Lemma find_none {A : Type} (f : A -> bool) (l : list A) :
  List.find f l = None <-> Forall (fun y => f y = false) l.
Proof.
  induction l as [| y l IH]; cbn [List.find].
  - split; [constructor | reflexivity].
  - destruct (f y) eqn:Hy.
    + split; [discriminate |]. intros [Hy' _]%Forall_cons. congruence.
    + rewrite IH. split; [by constructor | by intros [_ ?]%Forall_cons].
Qed.

(** X13. When the first part of the script gets through, there were
    exactly three arguments, the launcher exists, the data directory and
    [userdata] are directories, and the Steam user is the first entry of
    the listing of [userdata] whose name consists of digits: the entries
    before it are not such names, and the name is not empty.  When no entry
    is such a name, the script stops with status 1. *)
Theorem X13_startup_ready (expanduser : str -> str)
    (listdir : str -> list str) (char_isdigit : N -> bool)
    (argv : list str) (w : world) :
  (forall msgs EXE STARTDIR userdata user_id,
     startup expanduser listdir char_isdigit argv w
     = (msgs, Ready EXE STARTDIR userdata user_id) ->
     (exists a0 a1 a2 a3,
        argv = [a0; a1; a2; a3] /\ EXE = expanduser a1 /\
        STARTDIR = expanduser a2 /\
        msgs = [InfoLauncher a3; InfoScript EXE;
                InfoWorkingDirectory STARTDIR]) /\
     os_path_exists EXE (files w) (dirs w) = true /\
     os_path_isdir STARTDIR (dirs w) = true /\
     userdata = expanduser (slit "~/.steam/steam/userdata") /\
     os_path_isdir userdata (dirs w) = true /\
     (exists before after,
        listdir userdata = before ++ user_id :: after /\
        Forall (fun d => str_isdigit char_isdigit d = false) before) /\
     str_isdigit char_isdigit user_id = true /\ user_id <> []) /\
  (forall a0 a1 a2 a3,
     argv = [a0; a1; a2; a3] ->
     os_path_exists (expanduser a1) (files w) (dirs w) = true ->
     os_path_isdir (expanduser a2) (dirs w) = true ->
     os_path_isdir (expanduser (slit "~/.steam/steam/userdata")) (dirs w)
     = true ->
     Forall (fun d => str_isdigit char_isdigit d = false)
       (listdir (expanduser (slit "~/.steam/steam/userdata"))) ->
     startup expanduser listdir char_isdigit argv w
     = ([InfoLauncher a3; InfoScript (expanduser a1);
         InfoWorkingDirectory (expanduser a2); ErrNoSteamUser], Quit 1)).
Proof.
  split.
  - intros msgs EXE STARTDIR userdata user_id.
    destruct argv as [| a0 [| a1 [| a2 [| a3 [| a4 rest]]]]];
      try discriminate.
    cbn [startup].
    destruct (os_path_exists (expanduser a1) (files w) (dirs w)) eqn:Hexe;
      cbn [negb]; [| discriminate].
    destruct (os_path_isdir (expanduser a2) (dirs w)) eqn:Hdir;
      cbn [negb]; [| discriminate].
    destruct (os_path_exists (expanduser (slit "~/.steam/steam/userdata"))
                (files w) (dirs w)) eqn:Hud; cbn [negb]; [| discriminate].
    destruct (os_path_isdir (expanduser (slit "~/.steam/steam/userdata"))
                (dirs w)) eqn:Hudd; cbn [negb]; [| discriminate].
    destruct (List.find (str_isdigit char_isdigit)
                (listdir (expanduser (slit "~/.steam/steam/userdata"))))
      as [uid |] eqn:Hfind; [| discriminate].
    destruct (bool_decide (uid = [])) eqn:Hempty; [discriminate |].
    intros [= <- <- <- <- <-].
    apply find_first in Hfind as (before & after & Hl & Hd & Hb).
    apply bool_decide_eq_false in Hempty.
    split; [by exists a0, a1, a2, a3 |].
    repeat split; try assumption. by exists before, after.
  - intros a0 a1 a2 a3 -> Hexe Hdir Hudd Hnone. cbn [startup].
    rewrite Hexe, Hdir, Hudd. cbn [negb].
    assert (Hud : os_path_exists (expanduser (slit "~/.steam/steam/userdata"))
                    (files w) (dirs w) = true).
    { unfold os_path_exists, os_path_isdir in *. rewrite Hudd.
      apply orb_true_r. }
    rewrite Hud. cbn [negb].
    apply find_none in Hnone. rewrite Hnone. reflexivity.
Qed.

Lemma X13_startup_ready_witness :
  let expanduser := fun p : str => p in
  let listdir := fun _ : str => [slit "ac"; slit "42"; slit "7"] in
  let char_isdigit := fun c => ((48 <=? c)%N && (c <=? 57)%N) in
  let w := World {[slit "/run.sh" := lit "#!/bin/sh"]}
             ({[slit "/data"]} ∪ {[slit "~/.steam/steam/userdata"]}) [] in
  exists before after,
    listdir (slit "~/.steam/steam/userdata")
    = before ++ slit "42" :: after /\
    Forall (fun d => str_isdigit char_isdigit d = false) before.
Proof.
  intros expanduser listdir char_isdigit w.
  assert (Hstart :
    startup expanduser listdir char_isdigit
      [slit "add-to-steam.py"; slit "/run.sh"; slit "/data"; slit "PollyMC"] w
    = ([InfoLauncher (slit "PollyMC"); InfoScript (slit "/run.sh");
        InfoWorkingDirectory (slit "/data")],
       Ready (slit "/run.sh") (slit "/data")
         (slit "~/.steam/steam/userdata") (slit "42")))
    by (vm_compute; reflexivity).
  destruct (proj1 (X13_startup_ready expanduser listdir char_isdigit _ w)
              _ _ _ _ _ Hstart) as (_ & _ & _ & _ & _ & Hfirst & _).
  exact Hfirst.
Defined.

(** ** The script as a whole *)

Lemma startup_quit_status (expanduser : str -> str)
    (listdir : str -> list str) (char_isdigit : N -> bool)
    (argv : list str) (w : world) (msgs : list startup_message)
    (status : Z) :
  startup expanduser listdir char_isdigit argv w = (msgs, Quit status) ->
  status = 1%Z.
Proof.
  unfold startup.
  repeat match goal with
         | |- context [match ?x with _ => _ end] => destruct x
         end; congruence.
Qed.

Lemma main_outcome_cases (config_dir EXE STARTDIR : str) (w : world) :
  let r := main config_dir EXE STARTDIR w in
  (r.2 = Continues /\
   (exists id, appid APPNAME EXE = Ok id) /\
   exists content,
     files r.1 !! shortcuts_file config_dir = Some content /\
     endswith content [x08; x08] = true) \/
  r.2 = Exit 1 \/ r.2 = Uncaught UnicodeEncodeError.
Proof.
  intros r. subst r.
  assert (Hgen : forall data w0,
    let r := after_open config_dir EXE STARTDIR data w0 in
    (r.2 = Continues /\
     (exists id, appid APPNAME EXE = Ok id) /\
     exists content,
       files r.1 !! shortcuts_file config_dir = Some content /\
       endswith content [x08; x08] = true) \/
    r.2 = Exit 1 \/ r.2 = Uncaught UnicodeEncodeError).
  { intros data w0 r. subst r.
    destruct (after_open_outcome config_dir EXE STARTDIR data w0)
      as [(Henc & Hend & Ho) | [(_ & _ & Ho) | (_ & Ho)]]; [left | tauto | tauto].
    split; [exact Ho |]. split.
    - destruct (appid_outcome APPNAME EXE) as [[_ Hid] | [Hbad _]];
        [exact Hid |].
      exfalso. apply Hbad. apply Forall_app.
      split; [apply slit_scalar | by apply Forall_app in Henc as [? _]].
    - destruct (after_open_files config_dir EXE STARTDIR data w0)
        as [(_ & Hno & _) | (entry & index & id & _ & _ & Hf & _)];
        [congruence |].
      exists (new_data data entry). rewrite Hf, lookup_insert_eq.
      split; [reflexivity | apply new_data_endswith]. }
  destruct (files w !! shortcuts_file config_dir) as [data |] eqn:Hfile.
  - rewrite (main_present _ _ _ _ _ Hfile). apply Hgen.
  - rewrite (main_absent _ _ _ _ Hfile). apply Hgen.
Qed.

(** X14. The script stops early with status 1 and no other; whether it
    gets to the end does not depend on the network.  When it gets to the
    end, the database is in the state in which the database part left it,
    ending with [08 08], whatever happened to the downloads. *)
Theorem X14_script_end (expanduser : str -> str) (listdir : str -> list str)
    (char_isdigit : N -> bool) (net net' : str -> response)
    (argv : list str) (w : world) :
  let r := script expanduser listdir char_isdigit net argv w in
  (forall status, r_end r = Stopped status -> status = 1%Z) /\
  r_end r = r_end (script expanduser listdir char_isdigit net' argv w) /\
  (r_end r = Completed ->
   exists msgs EXE STARTDIR userdata user_id content,
     startup expanduser listdir char_isdigit argv w
     = (msgs, Ready EXE STARTDIR userdata user_id) /\
     files (main (config_dir_of userdata user_id) EXE STARTDIR w).1
       !! shortcuts_file (config_dir_of userdata user_id) = Some content /\
     r_files r !! shortcuts_file (config_dir_of userdata user_id)
     = Some content /\
     endswith content [x08; x08] = true).
Proof.
  intros r. subst r. unfold script.
  destruct (startup expanduser listdir char_isdigit argv w)
    as [msgs [EXE STARTDIR userdata user_id | status |]] eqn:Hstart;
    cbn [r_end].
  - pose proof (main_outcome_cases (config_dir_of userdata user_id) EXE
                  STARTDIR w) as Hmain.
    destruct (main (config_dir_of userdata user_id) EXE STARTDIR w)
      as [w1 o] eqn:Hm.
    cbn [fst snd] in Hmain.
    destruct Hmain as [(-> & [id Hid] & content & Hfile & Hend) | [-> | ->]].
    + rewrite Hid. cbn [r_end r_files].
      split; [discriminate |]. split; [reflexivity |]. intros _.
      exists msgs, EXE, STARTDIR, userdata, user_id, content.
      split; [reflexivity |]. rewrite Hm. cbn [fst].
      split; [exact Hfile |]. split; [| exact Hend].
      rewrite artwork_keeps; [exact Hfile |].
      unfold os_path_exists. cbn [s_files]. rewrite Hfile.
      rewrite bool_decide_eq_true_2 by eauto. reflexivity.
    + cbn [r_end]. split; [by intros ? [= <-] |].
      split; [reflexivity | discriminate].
    + cbn [r_end]. split; [by intros ? [= <-] |].
      split; [reflexivity | discriminate].
  - split; [| split; [reflexivity | discriminate]].
    intros ? [= <-]. by eapply startup_quit_status.
  - split; [by intros ? [= <-] |]. split; [reflexivity | discriminate].
Qed.

Lemma X14_script_end_witness :
  let expanduser := fun p : str => p in
  let listdir := fun _ : str => [slit "ac"; slit "42"] in
  let char_isdigit := fun c => ((48 <=? c)%N && (c <=? 57)%N) in
  let w := World {[slit "/run.sh" := lit "#!/bin/sh"]}
             ({[slit "/data"]} ∪ {[slit "~/.steam/steam/userdata"]}) [] in
  let r := script expanduser listdir char_isdigit (fun _ => OpenFails)
             [slit "add-to-steam.py"; slit "/run.sh"; slit "/data";
              slit "PollyMC"] w in
  r_end r = Completed /\
  exists userdata user_id content,
    r_files r !! shortcuts_file (config_dir_of userdata user_id)
    = Some content /\
    endswith content [x08; x08] = true.
Proof.
  intros expanduser listdir char_isdigit w r.
  assert (Hend : r_end r = Completed) by (vm_compute; reflexivity).
  split; [exact Hend |].
  destruct (X14_script_end expanduser listdir char_isdigit
              (fun _ => OpenFails) (fun _ => OpenFails)
              [slit "add-to-steam.py"; slit "/run.sh"; slit "/data";
               slit "PollyMC"] w) as (_ & _ & Hdone).
  destruct (Hdone Hend)
    as (_ & _ & _ & userdata & user_id & content & _ & _ & Hfile & Hterm).
  exists userdata, user_id, content. exact (conj Hfile Hterm).
Defined.
